(** * Schedule manager of the AI service platform

    A shallow embedding of [src/schedule_manager.py] (the [ScheduleManager]
    class and its [TimeSlot] / [DaySchedule] data classes), of the
    intake-time lookup [find_available_master] of [src/main.py], and of the
    endpoints of [src/main.py] that select masters, switch terminals and
    create, assign and update jobs.

    Modelling conventions.
    - The SQLite table [masters] is a list of rows in rowid order.  Its
      [id] column is declared [INTEGER PRIMARY KEY], so the rowid is the id,
      and a query without [ORDER BY] that scans the table returns the rows
      in this order.
    - The [schedule_json] column is kept in decoded form: [None] is SQL
      NULL, [Some s] the dictionary that [json.loads] and
      [DaySchedule.from_dict] rebuild.  [to_dict] / [from_dict] round-trip
      every field used here, so one decoded value stands for both.
    - A calendar date is its proleptic ordinal (Python's [date.toordinal]),
      so that [date(1,1,1)] is 1 and a Monday.  The dictionary key
      [date.strftime("%Y-%m-%d")] is injective on dates, so the ordinal is
      used as the key itself.
    - A wall-clock [time] is its number of microseconds since midnight and
      a naive [datetime] its number of microseconds since a fixed epoch;
      Python compares both the same way.
    - A SQL REAL (the rating) is a rational number; float rounding is not
      modelled.
    - A Python exception is the [inl] side of a [sum]. *)

From Stdlib Require Import ZArith QArith List Bool Ascii String Sorted Permutation.
From stdpp Require Import base gmap list.

Import ListNotations.
Open Scope Z_scope.

(** ** Data classes *)

(** [@dataclass class TimeSlot]; [end] is a keyword of Rocq. *)
Record TimeSlot := mkTimeSlot { start : Z; end_ : Z }.

(** [TimeSlot.__contains__]: [self.start <= check_time <= self.end]. *)
Definition slot_contains (ts : TimeSlot) (check_time : Z) : bool :=
  (start ts <=? check_time) && (check_time <=? end_ ts).

(** [@dataclass class DaySchedule]. *)
Record DaySchedule := mkDaySchedule {
  date : Z;
  available : bool;
  time_slot : option TimeSlot;
  booked_jobs : list Z
}.

(** [DaySchedule.is_available_at]. *)
Definition is_available_at (ds : DaySchedule) (check_time : Z) : bool :=
  if negb (available ds) then false
  else match time_slot ds with
       | None => false
       | Some ts => slot_contains ts check_time
       end.

(** A master's schedule: the dictionary date key -> [DaySchedule]. *)
Abbreviation Schedule := (gmap Z DaySchedule).

(** ** The [masters] table *)

Record MasterRow := mkMasterRow {
  id : Z;
  specializations : string;
  city : string;
  rating : option Q;
  is_active : Z;
  terminal_active : Z;
  schedule_json : option Schedule;
  last_schedule_confirmation : option Z
}.

Abbreviation Db := (list MasterRow).

(** [SELECT ... FROM masters WHERE id = ?] followed by [fetchone()]. *)
Definition row_by_id (db : Db) (master_id : Z) : option MasterRow :=
  find (fun r => id r =? master_id) db.

(** [UPDATE masters SET schedule_json = ? WHERE id = ?]. *)
Definition set_schedule_json (s : Schedule) (r : MasterRow) : MasterRow :=
  {| id := id r; specializations := specializations r; city := city r;
     rating := rating r; is_active := is_active r;
     terminal_active := terminal_active r; schedule_json := Some s;
     last_schedule_confirmation := last_schedule_confirmation r |}.

(** Python exceptions raised by the modelled code. *)
Inductive PyError := ValueError.

Abbreviation Result A := (sum PyError A).

(** ** Parsing of wall-clock times

    [time.fromisoformat] on the formats ["HH:MM"] and ["HH:MM:SS"], giving
    microseconds since midnight; any other string raises [ValueError] here.
    (Python also accepts further ISO forms such as ["HH"] or fractional
    seconds; no claim depends on them.) *)

Definition digit (c : ascii) : option Z :=
  let n := nat_of_ascii c in
  if (48 <=? n)%nat && (n <=? 57)%nat then Some (Z.of_nat n - 48) else None.

Definition two_digits (a b : ascii) (bound : Z) : option Z :=
  match digit a, digit b with
  | Some x, Some y => let v := 10 * x + y in if v <? bound then Some v else None
  | _, _ => None
  end.

Definition time_fromisoformat (s : string) : option Z :=
  match s with
  | String h1 (String h2 (String ":" (String m1 (String m2 EmptyString)))) =>
      match two_digits h1 h2 24, two_digits m1 m2 60 with
      | Some h, Some m => Some ((h * 60 + m) * 60 * 1000000)
      | _, _ => None
      end
  | String h1 (String h2 (String ":" (String m1 (String m2
      (String ":" (String s1 (String s2 EmptyString))))))) =>
      match two_digits h1 h2 24, two_digits m1 m2 60, two_digits s1 s2 60 with
      | Some h, Some m, Some sec => Some (((h * 60 + m) * 60 + sec) * 1000000)
      | _, _, _ => None
      end
  | _ => None
  end.

(** [time.fromisoformat] raising [ValueError]. *)
Definition parse_time (s : string) : Result Z :=
  match time_fromisoformat s with Some t => inr t | None => inl ValueError end.

(** Python truthiness of an [Optional[str]]: [None] and [""] are false. *)
Definition str_truthy (o : option string) : option string :=
  match o with None => None | Some EmptyString => None | Some s => Some s end.

(** ** [ScheduleManager] *)

(** [set_master_schedule]: the [UPDATE] rewrites every row with this id;
    when there is none, nothing is stored. *)
Definition set_master_schedule (db : Db) (master_id : Z) (schedule : Schedule) : Db :=
  map (fun r => if id r =? master_id then set_schedule_json schedule r else r) db.

(** [get_master_schedule]: [{}] when the row is missing or the column is
    NULL. *)
Definition get_master_schedule (db : Db) (master_id : Z) : Schedule :=
  match row_by_id db master_id with
  | Some r => match schedule_json r with Some s => s | None => ∅ end
  | None => ∅
  end.

(** The time slot built by [update_day_schedule]:
    [if available and start_time and end_time: time_slot = TimeSlot(...)].
    The [and] short-circuits, so nothing is parsed unless all three are
    truthy. *)
Definition day_time_slot (avail : bool) (start_time end_time : option string)
    : Result (option TimeSlot) :=
  if avail then
    match str_truthy start_time, str_truthy end_time with
    | Some st, Some et =>
        match parse_time st, parse_time et with
        | inr s, inr e => inr (Some (mkTimeSlot s e))
        | inl err, _ => inl err
        | _, inl err => inl err
        end
    | _, _ => inr None
    end
  else inr None.

(** [update_day_schedule]. *)
Definition update_day_schedule (db : Db) (master_id : Z) (d : Z) (avail : bool)
    (start_time end_time : option string) : Result Db :=
  let schedule := get_master_schedule db master_id in
  let date_key := d in
  match day_time_slot avail start_time end_time with
  | inl err => inl err
  | inr ts =>
      let jobs := booked_jobs (default (mkDaySchedule d false None []) (schedule !! date_key)) in
      let schedule' := <[date_key := mkDaySchedule d avail ts jobs]> schedule in
      inr (set_master_schedule db master_id schedule')
  end.

(** [is_master_available].  A [datetime.time] is always truthy (Python
    3.5 and later), so [if check_time] tests only for [None]. *)
Definition is_master_available (db : Db) (master_id : Z) (d : Z)
    (check_time : option Z) : bool :=
  let schedule := get_master_schedule db master_id in
  match schedule !! d with
  | None => false
  | Some day_schedule =>
      match check_time with
      | Some t => is_available_at day_schedule t
      | None => available day_schedule
      end
  end.

(** [book_master_for_job]: the list is appended to in place, then the
    whole schedule is saved. *)
Definition book_master_for_job (db : Db) (master_id job_id : Z) (d : Z) : Db :=
  let schedule := get_master_schedule db master_id in
  match schedule !! d with
  | Some ds =>
      let ds' := mkDaySchedule (date ds) (available ds) (time_slot ds)
                   (booked_jobs ds ++ [job_id]) in
      set_master_schedule db master_id (<[d := ds']> schedule)
  | None => db
  end.

(** [get_master_workload]. *)
Definition get_master_workload (db : Db) (master_id : Z) (d : Z) : Z :=
  match get_master_schedule db master_id !! d with
  | None => 0
  | Some ds => Z.of_nat (length (booked_jobs ds))
  end.

(** [needs_schedule_confirmation] at the instant [now] ([datetime.now()]).
    [timedelta(hours=12)] is [12 * 3600 * 10^6] microseconds. *)
Definition twelve_hours : Z := 12 * 3600 * 1000000.

Definition needs_schedule_confirmation (db : Db) (master_id : Z) (now : Z) : bool :=
  match row_by_id db master_id with
  | None => true
  | Some r =>
      match last_schedule_confirmation r with
      | None => true
      | Some last_confirmation => now - last_confirmation >? twelve_hours
      end
  end.

(** [date.weekday()]: Monday is 0; ordinal 1 is a Monday. *)
Definition weekday (d : Z) : Z := (d + 6) mod 7.

(** [if working_days is None: working_days = [0, 1, 2, 3, 4]]. *)
Definition resolve_working_days (working_days : option (list Z)) : list Z :=
  match working_days with None => [0; 1; 2; 3; 4] | Some l => l end.

(** One iteration of the loop of [create_weekly_schedule] per offset
    [i] of [range(7)]: the slot strings are parsed only on working days. *)
Fixpoint weekly_entries (today : Z) (default_start default_end : string)
    (working_days : list Z) (offsets : list Z) (schedule : Schedule) : Result Schedule :=
  match offsets with
  | [] => inr schedule
  | i :: rest =>
      let d := today + i in
      let avail := existsb (Z.eqb (weekday d)) working_days in
      let ts : Result (option TimeSlot) :=
        if avail then
          match parse_time default_start, parse_time default_end with
          | inr s, inr e => inr (Some (mkTimeSlot s e))
          | inl err, _ => inl err
          | _, inl err => inl err
          end
        else inr None in
      match ts with
      | inl err => inl err
      | inr ts => weekly_entries today default_start default_end working_days rest
                    (<[d := mkDaySchedule d avail ts []]> schedule)
      end
  end.

(** [range(7)]. *)
Definition week_offsets : list Z := [0; 1; 2; 3; 4; 5; 6].

(** [create_weekly_schedule], with [today = datetime.now().date()]. *)
Definition create_weekly_schedule (db : Db) (master_id : Z) (today : Z)
    (default_start default_end : string) (working_days : option (list Z)) : Result Db :=
  match weekly_entries today default_start default_end
          (resolve_working_days working_days) week_offsets ∅ with
  | inl err => inl err
  | inr schedule => inr (set_master_schedule db master_id schedule)
  end.

(** ** SQL [LIKE]

    SQLite's [LIKE] without [ESCAPE]: [%] matches any sequence, [_] any
    single character, and ASCII letters compare case-insensitively.
    Strings are byte strings here. *)

Definition ascii_lower (c : ascii) : ascii :=
  let n := nat_of_ascii c in
  if (65 <=? n)%nat && (n <=? 90)%nat then ascii_of_nat (n + 32) else c.

Definition ascii_ci_eqb (a b : ascii) : bool :=
  Ascii.eqb (ascii_lower a) (ascii_lower b).

Fixpoint like_match (p : list ascii) (s : list ascii) : bool :=
  match p with
  | [] => match s with [] => true | _ => false end
  | c :: p' =>
      if Ascii.eqb c "%"%char then
        (fix suffixes (s : list ascii) : bool :=
           like_match p' s || match s with [] => false | _ :: s' => suffixes s' end) s
      else
        match s with
        | [] => false
        | x :: s' => (Ascii.eqb c "_"%char || ascii_ci_eqb c x) && like_match p' s'
        end
  end.

(** [value LIKE pattern]. *)
Definition sql_like (value pattern : string) : bool :=
  like_match (list_ascii_of_string pattern) (list_ascii_of_string value).

(** The pattern [f'%{specialization}%']. *)
Definition contains_pattern (needle : string) : string :=
  ("%" ++ needle ++ "%")%string.

(** ** Stable descending sort

    Python's [list.sort(key=..., reverse=True)] is stable: among equal keys
    the original order is kept.  [le a b] decides [key a <= key b]; each
    element goes before every later element whose key is not larger. *)

Section StableSort.
Context {A : Type} (le : A -> A -> bool).

Fixpoint insert_desc (x : A) (l : list A) : list A :=
  match l with
  | [] => [x]
  | y :: l' => if le y x then x :: l else y :: insert_desc x l'
  end.

Fixpoint sort_desc (l : list A) : list A :=
  match l with
  | [] => []
  | x :: l' => insert_desc x (sort_desc l')
  end.

End StableSort.

(** ** Selection of a master *)

(** [get_available_masters]: the query scans [masters] in rowid order. *)
Definition matches_query (spec c : string) (r : MasterRow) : bool :=
  (is_active r =? 1) && String.eqb (city r) c
  && sql_like (specializations r) (contains_pattern spec).

Definition get_available_masters (db : Db) (specialization c : string) (d : Z)
    (check_time : option Z) : list Z :=
  List.filter (fun m => is_master_available db m d check_time)
    (map id (List.filter (matches_query specialization c) db)).

(** [cursor.fetchone()[0] or 5.0]: NULL and [0.0] are both falsy.  The
    row always exists here, since the id comes from the same table. *)
Definition rating_or_default (db : Db) (master_id : Z) : Q :=
  match row_by_id db master_id with
  | Some r =>
      match rating r with
      | Some q => if Qeq_bool q 0 then 5 else q
      | None => 5
      end
  | None => 5
  end.

(** [score = (rating * 10) - workload]. *)
Definition master_score (db : Db) (master_id : Z) (d : Z) : Q :=
  rating_or_default db master_id * 10 - inject_Z (get_master_workload db master_id d).

Definition score_le (a b : Z * Q) : bool := Qle_bool (snd a) (snd b).

(** [find_best_available_master]. *)
Definition find_best_available_master (db : Db) (specialization c : string) (d : Z)
    (check_time : option Z) : option Z :=
  match get_available_masters db specialization c d check_time with
  | [] => None
  | available_masters =>
      let master_scores := map (fun m => (m, master_score db m d)) available_masters in
      match sort_desc score_le master_scores with
      | (m, _) :: _ => Some m
      | [] => None
      end
  end.

(** [find_available_master] of [src/main.py]: [ORDER BY rating DESC
    LIMIT 1].  SQLite sorts NULL below every number.  Among rows of equal
    rating SQLite may return any; the model returns the first in rowid
    order. *)
Definition rating_le (a b : MasterRow) : bool :=
  match rating a, rating b with
  | None, _ => true
  | Some _, None => false
  | Some x, Some y => Qle_bool x y
  end.

Definition intake_query (category c : string) (r : MasterRow) : bool :=
  (is_active r =? 1) && (terminal_active r =? 1) && String.eqb (city r) c
  && sql_like (specializations r) (contains_pattern category).

Definition find_available_master (db : Db) (category c : string) : option Z :=
  match sort_desc rating_le (List.filter (intake_query category c) db) with
  | r :: _ => Some (id r)
  | [] => None
  end.

(** A row with this id exists in [masters]. *)
Definition has_row (db : Db) (master_id : Z) : bool :=
  existsb (fun r => id r =? master_id) db.

(** ** Sample data *)

Definition spec_a : DaySchedule := mkDaySchedule 100 true (Some (mkTimeSlot 0 10)) [7].

Definition row_of (i : Z) (r : option Q) (ta : Z) (s : option Schedule) : MasterRow :=
  {| id := i; specializations := "electrical, plumbing"; city := "Moscow";
     rating := r; is_active := 1; terminal_active := ta; schedule_json := s;
     last_schedule_confirmation := None |}.

Definition db_sample : Db :=
  [row_of 1 (Some 5%Q) 1 (Some {[100 := spec_a]}); row_of 2 None 0 None].

Example time_fromisoformat_0930 : time_fromisoformat "09:30" = Some (570 * 60 * 1000000).
Proof. reflexivity. Qed.

Example time_fromisoformat_bad : time_fromisoformat "25:00" = None.
Proof. reflexivity. Qed.

Example sql_like_ci : sql_like "Electrical, Plumbing" (contains_pattern "plumb") = true.
Proof. reflexivity. Qed.

Example sql_like_no : sql_like "electrical" (contains_pattern "plumb") = false.
Proof. reflexivity. Qed.

Example weekday_monday : weekday 1 = 0.
Proof. reflexivity. Qed.

Example book_sample :
  get_master_workload (book_master_for_job db_sample 1 8 100) 1 100 = 2.
Proof. reflexivity. Qed.

Example is_available_sample :
  is_master_available db_sample 1 100 (Some 10) = true
  /\ is_master_available db_sample 1 100 (Some 11) = false
  /\ is_master_available db_sample 2 100 None = false.
Proof. repeat split. Qed.

(** ** The record store *)

Lemma row_by_id_map_same (f : MasterRow -> MasterRow) db m :
  (forall r, id (f r) = id r) ->
  row_by_id (map f db) m = option_map f (row_by_id db m).
Proof.
  intros Hid. induction db as [|r db IH]; simpl; [done |].
  rewrite Hid. destruct (id r =? m); simpl; done.
Qed.

Lemma get_set_master_schedule_eq db m s :
  has_row db m = true -> get_master_schedule (set_master_schedule db m s) m = s.
Proof.
  unfold get_master_schedule, set_master_schedule, has_row.
  induction db as [|r db IH]; simpl; [discriminate |].
  destruct (id r =? m) eqn:E; simpl.
  - rewrite E. done.
  - rewrite E. intros H. apply IH. exact H.
Qed.

Lemma get_set_master_schedule_ne db m m' s :
  m' <> m -> get_master_schedule (set_master_schedule db m s) m' = get_master_schedule db m'.
Proof.
  intros Hne. unfold get_master_schedule, set_master_schedule.
  induction db as [|r db IH]; simpl; [done |].
  destruct (id r =? m) eqn:E; simpl.
  - assert ((id r =? m') = false) as E'.
    { apply Z.eqb_eq in E. apply Z.eqb_neq. congruence. }
    rewrite E'. exact IH.
  - destruct (id r =? m'); [done | exact IH].
Qed.

Lemma has_row_of_lookup db m d ds :
  get_master_schedule db m !! d = Some ds -> has_row db m = true.
Proof.
  unfold get_master_schedule, has_row, row_by_id.
  destruct (find (fun r => id r =? m) db) as [r|] eqn:E.
  - intros _. apply find_some in E as [Hin Hid].
    apply existsb_exists. exists r. done.
  - rewrite lookup_empty. discriminate.
Qed.

Lemma has_row_set db m m' s : has_row (set_master_schedule db m s) m' = has_row db m'.
Proof.
  unfold has_row, set_master_schedule.
  induction db as [|r db IH]; simpl; [done |].
  destruct (id r =? m); simpl; rewrite IH; done.
Qed.

(** ** C2: booking *)

(** C2. [book_master_for_job] on a date with no entry leaves the table as
    it is and the workload there stays 0; on a date with an entry it
    appends [job_id] at the tail of [booked_jobs] (no duplicate check, no
    capacity limit), leaves the other dates alone and raises the workload
    by exactly one. *)
Theorem book_master_for_job_spec (db : Db) (m job_id d : Z) :
  (get_master_schedule db m !! d = None ->
     book_master_for_job db m job_id d = db
     /\ get_master_workload (book_master_for_job db m job_id d) m d = 0)
  /\ (forall ds, get_master_schedule db m !! d = Some ds ->
     get_master_schedule (book_master_for_job db m job_id d) m !! d
       = Some (mkDaySchedule (date ds) (available ds) (time_slot ds)
                 (booked_jobs ds ++ [job_id]))
     /\ (forall k, k <> d ->
           get_master_schedule (book_master_for_job db m job_id d) m !! k
           = get_master_schedule db m !! k)
     /\ get_master_workload (book_master_for_job db m job_id d) m d
        = get_master_workload db m d + 1).
Proof.
  split.
  - intros H. unfold book_master_for_job. rewrite H. split; [done |].
    unfold get_master_workload. rewrite H. done.
  - intros ds H. pose proof (has_row_of_lookup _ _ _ _ H) as Hrow.
    unfold book_master_for_job, get_master_workload. rewrite H.
    rewrite !get_set_master_schedule_eq by exact Hrow.
    rewrite lookup_insert_eq. simpl. rewrite length_app. simpl.
    split; [done |]. split; [| lia].
    intros k Hk. rewrite lookup_insert_ne; [done | congruence].
Qed.

Lemma book_master_for_job_spec_witness :
  book_master_for_job db_sample 1 8 101 = db_sample
  /\ get_master_workload (book_master_for_job db_sample 1 8 100) 1 100
     = get_master_workload db_sample 1 100 + 1.
Proof.
  split.
  - apply (proj1 (book_master_for_job_spec db_sample 1 8 101)). reflexivity.
  - apply (proj2 (book_master_for_job_spec db_sample 1 8 100) spec_a). reflexivity.
Defined.

(** ** C5: availability queries *)

(** C5. [is_master_available] is false when the schedule has no entry for
    the date; with a time [t] it is true exactly when the entry is
    available and has a slot with [start <= t <= end] (both ends
    inclusive); without a time it is the entry's [available] flag. *)
Theorem is_master_available_spec (db : Db) (m d : Z) :
  (get_master_schedule db m !! d = None ->
     forall t, is_master_available db m d t = false)
  /\ (forall e, get_master_schedule db m !! d = Some e ->
       (forall t, is_master_available db m d (Some t) = true <->
          available e = true
          /\ exists ts, time_slot e = Some ts /\ start ts <= t <= end_ ts)
       /\ is_master_available db m d None = available e).
Proof.
  unfold is_master_available. split.
  - intros H t. rewrite H. done.
  - intros e H. rewrite H. split; [| done].
    intros t. unfold is_available_at, slot_contains.
    destruct (available e); simpl.
    + destruct (time_slot e) as [ts|]; split.
      * intros Hb. apply andb_true_iff in Hb as [H1 H2].
        apply Z.leb_le in H1. apply Z.leb_le in H2. eauto.
      * intros [_ [ts' [Heq [H1 H2]]]]. injection Heq as <-.
        apply andb_true_iff. split; apply Z.leb_le; done.
      * discriminate.
      * intros [_ [ts' [Heq _]]]. discriminate.
    + split; [discriminate | intros [Hf _]; discriminate].
Qed.

Lemma is_master_available_spec_witness :
  is_master_available db_sample 1 101 None = false
  /\ (is_master_available db_sample 1 100 (Some 10) = true <->
        available spec_a = true
        /\ exists ts, time_slot spec_a = Some ts /\ start ts <= 10 <= end_ ts).
Proof.
  split.
  - apply (proj1 (is_master_available_spec db_sample 1 101)). reflexivity.
  - apply (proj1 (proj2 (is_master_available_spec db_sample 1 100) spec_a eq_refl)).
Defined.

(** ** C9: daily confirmation *)

(** C9. [needs_schedule_confirmation] is true when no confirmation is
    stored, true when [now - last_confirmation] is strictly more than 12
    hours, and false otherwise; exactly 12 hours gives false. *)
Theorem needs_schedule_confirmation_spec (db : Db) (m now : Z) :
  (row_by_id db m = None -> needs_schedule_confirmation db m now = true)
  /\ (forall r, row_by_id db m = Some r -> last_schedule_confirmation r = None ->
        needs_schedule_confirmation db m now = true)
  /\ (forall r last, row_by_id db m = Some r ->
        last_schedule_confirmation r = Some last ->
        (needs_schedule_confirmation db m now = true <-> now - last > twelve_hours)
        /\ (now - last = twelve_hours -> needs_schedule_confirmation db m now = false)).
Proof.
  unfold needs_schedule_confirmation. split; [| split].
  - intros H. rewrite H. done.
  - intros r H Hl. rewrite H, Hl. done.
  - intros r last H Hl. rewrite H, Hl. split.
    + rewrite Z.gtb_lt. lia.
    + intros Heq. rewrite Z.gtb_ltb. apply Z.ltb_ge. lia.
Qed.

Definition row_confirmed (last : Z) : MasterRow :=
  {| id := 3; specializations := "general"; city := "Kazan"; rating := None;
     is_active := 1; terminal_active := 1; schedule_json := None;
     last_schedule_confirmation := Some last |}.

Lemma needs_schedule_confirmation_spec_witness :
  needs_schedule_confirmation db_sample 1 0 = true
  /\ needs_schedule_confirmation [row_confirmed 0] 3 twelve_hours = false.
Proof.
  split.
  - apply (proj1 (proj2 (needs_schedule_confirmation_spec db_sample 1 0))
             (row_of 1 (Some 5%Q) 1 (Some {[100 := spec_a]}))); reflexivity.
  - apply (proj2 (proj2 (proj2 (needs_schedule_confirmation_spec [row_confirmed 0] 3 twelve_hours))
             (row_confirmed 0) 0 eq_refl eq_refl)).
    reflexivity.
Defined.

(** ** C6: [update_day_schedule] touches one date *)

Lemma update_day_schedule_result db m d avail st et db' :
  update_day_schedule db m d avail st et = inr db' ->
  exists ts, day_time_slot avail st et = inr ts
    /\ db' = set_master_schedule db m
               (<[d := mkDaySchedule d avail ts
                        (booked_jobs (default (mkDaySchedule d false None [])
                                        (get_master_schedule db m !! d)))]>
                  (get_master_schedule db m)).
Proof.
  unfold update_day_schedule.
  destruct (day_time_slot avail st et) as [err|ts]; [discriminate |].
  intros H. injection H as <-. eauto.
Qed.

(** C6. A successful [update_day_schedule] on an existing master replaces
    the entry at its date only; every other date keeps its entry, and the
    new entry keeps the [booked_jobs] stored there before (empty when
    there was no entry), so repeated calls never reset them. *)
Theorem update_day_schedule_frame (db db' : Db) (m d : Z) (avail : bool)
    (start_time end_time : option string) :
  has_row db m = true ->
  update_day_schedule db m d avail start_time end_time = inr db' ->
  (forall k, k <> d -> get_master_schedule db' m !! k = get_master_schedule db m !! k)
  /\ exists ts, get_master_schedule db' m !! d
       = Some (mkDaySchedule d avail ts
                 (match get_master_schedule db m !! d with
                  | Some e => booked_jobs e
                  | None => []
                  end)).
Proof.
  intros Hrow Hup. apply update_day_schedule_result in Hup as [ts [_ ->]].
  rewrite get_set_master_schedule_eq by exact Hrow. split.
  - intros k Hk. rewrite lookup_insert_ne; [done | congruence].
  - exists ts. rewrite lookup_insert_eq.
    destruct (get_master_schedule db m !! d); done.
Qed.

Definition db_unset : Db :=
  match update_day_schedule db_sample 1 100 false None None with
  | inr db' => db'
  | inl _ => db_sample
  end.

Lemma update_day_schedule_frame_witness :
  exists ts, get_master_schedule db_unset 1 !! 100 = Some (mkDaySchedule 100 false ts [7]).
Proof.
  destruct (update_day_schedule_frame db_sample db_unset 1 100 false None None
              eq_refl eq_refl) as [_ [ts Hts]].
  exists ts. rewrite Hts. reflexivity.
Defined.

(** ** Slot handling of [update_day_schedule] *)

Lemma update_day_schedule_stores db m d avail st et ts :
  has_row db m = true -> day_time_slot avail st et = inr ts ->
  exists db', update_day_schedule db m d avail st et = inr db'
    /\ exists jobs, get_master_schedule db' m !! d = Some (mkDaySchedule d avail ts jobs).
Proof.
  intros Hrow Hts. unfold update_day_schedule. rewrite Hts.
  eexists. split; [reflexivity |].
  rewrite get_set_master_schedule_eq by exact Hrow.
  rewrite lookup_insert_eq. eauto.
Qed.

Lemma str_truthy_parsed s t : time_fromisoformat s = Some t -> str_truthy (Some s) = Some s.
Proof. destruct s; [discriminate | done]. Qed.

(** C4 (counterexample). With [available = true], a call without a slot
    and a call with [start > end] both succeed and store the entry; no
    [InvalidSlot] error exists. *)
Lemma update_day_schedule_accepts_bad_slots :
  update_day_schedule db_sample 1 200 true None None
    = inr (set_master_schedule db_sample 1
             (<[200 := mkDaySchedule 200 true None []]> (get_master_schedule db_sample 1)))
  /\ update_day_schedule db_sample 1 200 true (Some "18:00"%string) (Some "09:00"%string)
    = inr (set_master_schedule db_sample 1
             (<[200 := mkDaySchedule 200 true
                         (Some (mkTimeSlot (1080 * 60 * 1000000) (540 * 60 * 1000000))) []]>
                (get_master_schedule db_sample 1))).
Proof. split; reflexivity. Qed.

(** C4 (amended). [update_day_schedule] does no slot validation: with
    [available = true] and a missing (None or empty) start or end it
    succeeds and stores an available entry without a slot; with parsable
    start and end it succeeds and stores that slot as given, also when
    [start > end]. *)
Theorem update_day_schedule_no_validation (db : Db) (m d : Z)
    (start_time end_time : option string) :
  has_row db m = true ->
  ((str_truthy start_time = None \/ str_truthy end_time = None) ->
     exists db', update_day_schedule db m d true start_time end_time = inr db'
       /\ exists jobs, get_master_schedule db' m !! d = Some (mkDaySchedule d true None jobs))
  /\ (forall st et s e, start_time = Some st -> end_time = Some et ->
        time_fromisoformat st = Some s -> time_fromisoformat et = Some e ->
        exists db', update_day_schedule db m d true start_time end_time = inr db'
          /\ exists jobs, get_master_schedule db' m !! d
                = Some (mkDaySchedule d true (Some (mkTimeSlot s e)) jobs)).
Proof.
  intros Hrow. split.
  - intros Hmiss. apply update_day_schedule_stores; [exact Hrow |].
    simpl. destruct Hmiss as [-> | ->]; [done |].
    destruct (str_truthy start_time); done.
  - intros st et s e -> -> Hs He. apply update_day_schedule_stores; [exact Hrow |].
    unfold day_time_slot. rewrite (str_truthy_parsed _ _ Hs), (str_truthy_parsed _ _ He).
    unfold parse_time. rewrite Hs, He. done.
Qed.

Lemma update_day_schedule_no_validation_witness :
  exists db', update_day_schedule db_sample 1 200 true (Some "18:00"%string) (Some "09:00"%string) = inr db'
    /\ exists jobs, get_master_schedule db' 1 !! 200
         = Some (mkDaySchedule 200 true
                   (Some (mkTimeSlot (1080 * 60 * 1000000) (540 * 60 * 1000000))) jobs).
Proof.
  apply (proj2 (update_day_schedule_no_validation db_sample 1 200
                  (Some "18:00"%string) (Some "09:00"%string) eq_refl)
           "18:00"%string "09:00"%string _ _ eq_refl eq_refl); reflexivity.
Defined.

(** ** C10: available without a slot *)

(** C10. [update_day_schedule] with [available = true] and a missing start
    or end raises nothing and stores an available entry without a slot;
    afterwards the master is available on that date when no time is asked
    and unavailable at every time [t]. *)
Theorem update_day_schedule_missing_time (db : Db) (m d : Z)
    (start_time end_time : option string) :
  (start_time = None \/ end_time = None) -> has_row db m = true ->
  exists db', update_day_schedule db m d true start_time end_time = inr db'
    /\ (exists jobs, get_master_schedule db' m !! d = Some (mkDaySchedule d true None jobs))
    /\ is_master_available db' m d None = true
    /\ forall t, is_master_available db' m d (Some t) = false.
Proof.
  intros Hmiss Hrow.
  destruct (update_day_schedule_stores db m d true start_time end_time None Hrow)
    as [db' [Hup [jobs Hl]]].
  { simpl. destruct Hmiss as [-> | ->]; [done |].
    destruct (str_truthy start_time); done. }
  exists db'. split; [exact Hup |]. split; [eauto |].
  unfold is_master_available. rewrite Hl. split; done.
Qed.

Lemma update_day_schedule_missing_time_witness :
  exists db', update_day_schedule db_sample 1 100 true (Some "09:00"%string) None = inr db'
    /\ is_master_available db' 1 100 None = true
    /\ is_master_available db' 1 100 (Some 5) = false.
Proof.
  destruct (update_day_schedule_missing_time db_sample 1 100 (Some "09:00"%string) None
              (or_intror eq_refl) eq_refl) as [db' [Hup [_ [Hnone Ht]]]].
  exists db'. split; [exact Hup |]. split; [exact Hnone | apply Ht].
Defined.

(** ** C3: the weekly schedule *)

(** The entry [create_weekly_schedule] writes for date [k]. *)
Definition week_entry (working_days : list Z) (s e : Z) (k : Z) : DaySchedule :=
  let avail := existsb (Z.eqb (weekday k)) working_days in
  mkDaySchedule k avail (if avail then Some (mkTimeSlot s e) else None) [].

Lemma weekly_entries_lookup today default_start default_end working_days s e offsets acc :
  time_fromisoformat default_start = Some s -> time_fromisoformat default_end = Some e ->
  exists res, weekly_entries today default_start default_end working_days offsets acc = inr res
    /\ forall k, res !! k =
         if existsb (fun i => today + i =? k) offsets
         then Some (week_entry working_days s e k) else acc !! k.
Proof.
  intros Hs He. revert acc.
  induction offsets as [|i rest IH]; intros acc; simpl.
  - eexists. split; [reflexivity | done].
  - unfold parse_time. rewrite Hs, He.
    destruct (IH (<[today + i := week_entry working_days s e (today + i)]> acc))
      as [res [Hres Hk]].
    exists res. split.
    + rewrite <- Hres. unfold week_entry.
      destruct (existsb (Z.eqb (weekday (today + i))) working_days); reflexivity.
    + intros k. rewrite Hk. destruct (Z.eqb_spec (today + i) k) as [<- | Hne]; simpl.
      * destruct (existsb _ rest); [done |]. by rewrite lookup_insert_eq.
      * destruct (existsb _ rest); [done |]. by rewrite lookup_insert_ne.
Qed.

Lemma existsb_week_offsets today k :
  existsb (fun i => today + i =? k) week_offsets = (today <=? k) && (k <? today + 7).
Proof.
  unfold week_offsets. simpl existsb.
  repeat match goal with
         | |- context [today + ?n =? k] => destruct (Z.eqb_spec (today + n) k)
         end; simpl.
  all: destruct (Z.leb_spec today k), (Z.ltb_spec k (today + 7)); simpl;
       try reflexivity; lia.
Qed.

(** C3. A successful [create_weekly_schedule] replaces the master's whole
    schedule: the dates [today .. today + 6] get an entry, available with
    the slot [default_start .. default_end] when the weekday is a working
    day and unavailable without a slot otherwise, each with no booked
    jobs; every other date has no entry. *)
Theorem create_weekly_schedule_spec (db : Db) (m today : Z)
    (default_start default_end : string) (working_days : option (list Z)) (s e : Z) :
  has_row db m = true ->
  time_fromisoformat default_start = Some s -> time_fromisoformat default_end = Some e ->
  exists db', create_weekly_schedule db m today default_start default_end working_days = inr db'
    /\ forall k, get_master_schedule db' m !! k =
         if (today <=? k) && (k <? today + 7)
         then Some (week_entry (resolve_working_days working_days) s e k)
         else None.
Proof.
  intros Hrow Hs He. unfold create_weekly_schedule.
  destruct (weekly_entries_lookup today default_start default_end
              (resolve_working_days working_days) s e week_offsets ∅ Hs He)
    as [res [Hres Hk]].
  rewrite Hres. eexists. split; [reflexivity |].
  intros k. rewrite get_set_master_schedule_eq by exact Hrow.
  rewrite Hk, existsb_week_offsets. by rewrite lookup_empty.
Qed.

(** 2024-01-01, a Monday, is ordinal 738886. *)
Definition monday_2024 : Z := 738886.

Lemma monday_2024_weekday : weekday monday_2024 = 0.
Proof. reflexivity. Qed.

Lemma create_weekly_schedule_spec_witness :
  exists db', create_weekly_schedule db_sample 1 monday_2024 "09:00" "18:00"
                (Some [0; 1; 2; 3; 4]) = inr db'
    /\ get_master_schedule db' 1 !! monday_2024
       = Some (mkDaySchedule monday_2024 true
                 (Some (mkTimeSlot (540 * 60 * 1000000) (1080 * 60 * 1000000))) [])
    /\ get_master_schedule db' 1 !! (monday_2024 + 5)
       = Some (mkDaySchedule (monday_2024 + 5) false None [])
    /\ get_master_schedule db' 1 !! 100 = None.
Proof.
  destruct (create_weekly_schedule_spec db_sample 1 monday_2024 "09:00" "18:00"
              (Some [0; 1; 2; 3; 4]) (540 * 60 * 1000000) (1080 * 60 * 1000000)
              eq_refl eq_refl eq_refl) as [db' [Hc Hk]].
  exists db'. split; [exact Hc |].
  rewrite !Hk. split; [reflexivity | split; reflexivity].
Defined.

Example week_entry_saturday :
  week_entry [0; 1; 2; 3; 4] 0 1 (monday_2024 + 5) = mkDaySchedule (monday_2024 + 5) false None [].
Proof. reflexivity. Qed.

(** ** C7: no slot on an unavailable day *)

(** The invariant of [DaySchedule]: no time slot when not available. *)
Definition day_ok (ds : DaySchedule) : Prop := available ds = false -> time_slot ds = None.

Definition schedule_ok (s : Schedule) : Prop := map_Forall (fun _ ds => day_ok ds) s.

(** Every stored schedule of the table satisfies the invariant. *)
Definition db_ok (db : Db) : Prop :=
  Forall (fun r => forall s, schedule_json r = Some s -> schedule_ok s) db.

Lemma get_master_schedule_ok db m : db_ok db -> schedule_ok (get_master_schedule db m).
Proof.
  intros Hdb. unfold get_master_schedule, row_by_id.
  destruct (find (fun r => id r =? m) db) as [r|] eqn:E.
  - apply find_some in E as [Hin _]. unfold db_ok in Hdb. rewrite List.Forall_forall in Hdb.
    destruct (schedule_json r) as [s|] eqn:Hs; [| apply map_Forall_empty].
    exact (Hdb r Hin s Hs).
  - apply map_Forall_empty.
Qed.

Lemma set_master_schedule_ok db m s :
  db_ok db -> schedule_ok s -> db_ok (set_master_schedule db m s).
Proof.
  intros Hdb Hs. unfold db_ok, set_master_schedule in *.
  induction db as [|r db IH]; simpl; [constructor |].
  apply Forall_cons in Hdb as [Hr Hdb]. constructor; [| exact (IH Hdb)].
  destruct (id r =? m); [| exact Hr].
  intros s' Heq. injection Heq as <-. exact Hs.
Qed.

Lemma day_time_slot_unavailable st et ts :
  day_time_slot false st et = inr ts -> ts = None.
Proof. simpl. congruence. Qed.

Lemma day_time_slot_ok avail st et ts :
  day_time_slot avail st et = inr ts -> day_ok (mkDaySchedule 0 avail ts []) .
Proof.
  intros H Hav. simpl in Hav. subst avail. exact (day_time_slot_unavailable _ _ _ H).
Qed.

Lemma weekly_entries_ok today ds de wd offsets acc res :
  schedule_ok acc ->
  weekly_entries today ds de wd offsets acc = inr res -> schedule_ok res.
Proof.
  revert acc. induction offsets as [|i rest IH]; intros acc Hacc; simpl.
  - intros H. injection H as <-. exact Hacc.
  - destruct (existsb (Z.eqb (weekday (today + i))) wd) eqn:Hav.
    + destruct (parse_time ds) as [err|s], (parse_time de) as [err'|e];
        try discriminate.
      apply IH. apply map_Forall_insert_2; [| exact Hacc].
      intros Hf. discriminate.
    + apply IH. apply map_Forall_insert_2; [| exact Hacc]. done.
Qed.

(** C7. Starting from a table whose stored entries all satisfy "no slot
    when not available", [update_day_schedule], [create_weekly_schedule]
    and [book_master_for_job] keep it so.  After [update_day_schedule] with
    [available = false] the master is unavailable on that date (with or
    without a time), and the stored entry has no slot even if it had one
    before. *)
Theorem schedule_slot_invariant (db : Db) :
  db_ok db ->
  (forall m d avail st et db', update_day_schedule db m d avail st et = inr db' -> db_ok db')
  /\ (forall m today ds de wd db',
        create_weekly_schedule db m today ds de wd = inr db' -> db_ok db')
  /\ (forall m job_id d, db_ok (book_master_for_job db m job_id d))
  /\ (forall m d st et db', update_day_schedule db m d false st et = inr db' ->
        (forall t, is_master_available db' m d t = false)
        /\ (has_row db m = true ->
              exists ds, get_master_schedule db' m !! d = Some ds
                /\ available ds = false /\ time_slot ds = None)).
Proof.
  intros Hdb. split; [| split; [| split]].
  - intros m d avail st et db' Hup.
    apply update_day_schedule_result in Hup as [ts [Hts ->]].
    apply set_master_schedule_ok; [exact Hdb |].
    apply map_Forall_insert_2; [| apply get_master_schedule_ok, Hdb].
    intros Hav. simpl in Hav. subst avail. exact (day_time_slot_unavailable _ _ _ Hts).
  - intros m today ds de wd db'. unfold create_weekly_schedule.
    destruct (weekly_entries _ _ _ _ _ _) as [err|s] eqn:Hw; [discriminate |].
    intros Heq. injection Heq as <-.
    apply set_master_schedule_ok; [exact Hdb |].
    eapply weekly_entries_ok; [apply map_Forall_empty | exact Hw].
  - intros m job_id d. unfold book_master_for_job.
    pose proof (get_master_schedule_ok db m Hdb) as Hs.
    destruct (get_master_schedule db m !! d) as [ds|] eqn:Hl; [| exact Hdb].
    apply set_master_schedule_ok; [exact Hdb |].
    apply map_Forall_insert_2; [| exact Hs].
    exact (map_Forall_lookup_1 _ _ _ _ Hs Hl).
  - intros m d st et db' Hup.
    apply update_day_schedule_result in Hup as [ts [Hts ->]].
    apply day_time_slot_unavailable in Hts. subst ts.
    destruct (has_row db m) eqn:Hrow.
    + rewrite get_set_master_schedule_eq by exact Hrow.
      split.
      * intros t. unfold is_master_available.
        rewrite get_set_master_schedule_eq by exact Hrow.
        rewrite lookup_insert_eq. destruct t; done.
      * intros _. rewrite lookup_insert_eq. eexists. done.
    + split; [| discriminate].
      intros t. unfold is_master_available.
      destruct (get_master_schedule _ m !! d) eqn:Hl; [| done].
      apply has_row_of_lookup in Hl. rewrite has_row_set in Hl. congruence.
Qed.

Lemma db_sample_ok : db_ok db_sample.
Proof.
  unfold db_ok, db_sample. constructor; [| constructor; [| constructor]].
  - simpl. intros s Hs. injection Hs as <-.
    apply map_Forall_insert_2; [discriminate | apply map_Forall_empty].
  - simpl. discriminate.
Qed.

Lemma schedule_slot_invariant_witness :
  is_master_available db_unset 1 100 None = false
  /\ is_master_available db_unset 1 100 (Some 5) = false.
Proof.
  pose proof (proj1 (proj2 (proj2 (proj2 (schedule_slot_invariant db_sample db_sample_ok)))
                1 100 None None db_unset eq_refl)) as H.
  split; apply H.
Defined.

(** ** The head of the stable descending sort *)

Section SortHead.
Context {A : Type} (le : A -> A -> bool).
Hypothesis le_total : forall a b, le a b = false -> le b a = true.
Hypothesis le_trans : forall a b c, le a b = true -> le b c = true -> le a c = true.

Lemma le_refl a : le a a = true.
Proof. destruct (le a a) eqn:E; [done |]. rewrite <- E. exact (le_total _ _ E). Qed.

Lemma insert_desc_not_nil x l : insert_desc le x l <> [].
Proof. destruct l; simpl; [done |]. destruct (le _ x); done. Qed.

Lemma sort_desc_nil l : sort_desc le l = [] -> l = [].
Proof.
  destruct l as [|a l]; simpl; [done |]. intros H. by apply insert_desc_not_nil in H.
Qed.

(** The first element of the sorted list is the first element of [l]
    with a maximal key: every element before it has a smaller key and
    every element of [l] has a key at most as large. *)
Lemma sort_desc_head l x r :
  sort_desc le l = x :: r ->
  exists pre post, l = pre ++ x :: post
    /\ (forall y, In y pre -> le x y = false)
    /\ (forall y, In y l -> le y x = true).
Proof.
  revert x r. induction l as [|a l IH]; intros x r; simpl; [discriminate |].
  destruct (sort_desc le l) as [|y r'] eqn:Hs.
  - apply sort_desc_nil in Hs as ->. simpl. intros H. injection H as <- _.
    exists [], []. split; [done |]. split; [done |].
    intros y [<- | []]. apply le_refl.
  - destruct (IH y r' eq_refl) as [pre [post [Hl [Hpre Hmax]]]].
    simpl. destruct (le y a) eqn:Hya; intros H; injection H as <- _.
    + exists [], l. split; [done |]. split; [done |].
      intros z [<- | Hz]; [apply le_refl |]. exact (le_trans _ _ _ (Hmax z Hz) Hya).
    + exists (a :: pre), post. split; [by rewrite Hl |]. split.
      * intros z [<- | Hz]; [exact Hya | exact (Hpre z Hz)].
      * intros z [<- | Hz]; [exact (le_total _ _ Hya) | exact (Hmax z Hz)].
Qed.

End SortHead.

Lemma Qle_bool_total a b : Qle_bool a b = false -> Qle_bool b a = true.
Proof.
  intros H. apply Qle_bool_iff. apply Qlt_le_weak. apply Qnot_le_lt.
  intros Hle. apply Qle_bool_iff in Hle. congruence.
Qed.

Lemma Qle_bool_trans a b c : Qle_bool a b = true -> Qle_bool b c = true -> Qle_bool a c = true.
Proof. rewrite !Qle_bool_iff. apply Qle_trans. Qed.

Lemma score_le_total a b : score_le a b = false -> score_le b a = true.
Proof. apply Qle_bool_total. Qed.

Lemma score_le_trans a b c : score_le a b = true -> score_le b c = true -> score_le a c = true.
Proof. apply Qle_bool_trans. Qed.

Lemma rating_le_total a b : rating_le a b = false -> rating_le b a = true.
Proof.
  unfold rating_le. destruct (rating a), (rating b); try done. apply Qle_bool_total.
Qed.

Lemma rating_le_trans a b c : rating_le a b = true -> rating_le b c = true -> rating_le a c = true.
Proof.
  unfold rating_le. destruct (rating a), (rating b), (rating c); try done.
  apply Qle_bool_trans.
Qed.

Lemma find_best_available_master_max db spec c d t m :
  find_best_available_master db spec c d t = Some m ->
  exists pre post, get_available_masters db spec c d t = pre ++ m :: post
    /\ (forall m', In m' pre -> (master_score db m' d < master_score db m d)%Q)
    /\ (forall m', In m' (get_available_masters db spec c d t) ->
          (master_score db m' d <= master_score db m d)%Q).
Proof.
  unfold find_best_available_master.
  destruct (get_available_masters db spec c d t) as [|m0 rest] eqn:Hc; [discriminate |].
  set (f := fun m => (m, master_score db m d)).
  destruct (sort_desc score_le (map f (m0 :: rest))) as [|[m1 q] r] eqn:Hs; [discriminate |].
  intros H. injection H as ->.
  destruct (sort_desc_head score_le score_le_total score_le_trans _ _ _ Hs)
    as [pre [post [Hl [Hpre Hmax]]]].
  apply map_eq_app in Hl as [pre0 [post0 [Hl [Hpre0 Hpost0]]]].
  apply map_eq_cons in Hpost0 as [x [post1 [-> [Hx Hpost1]]]].
  unfold f in Hx. injection Hx as -> ->.
  exists pre0, post1. split; [exact Hl |]. split.
  - intros m' Hin. apply Qnot_le_lt. intros Hle.
    assert (In (f m') pre) as Hin' by (rewrite <- Hpre0; apply in_map, Hin).
    specialize (Hpre _ Hin'). unfold score_le, f in Hpre. simpl in Hpre.
    apply Qle_bool_iff in Hle. congruence.
  - intros m' Hin. apply Qle_bool_iff.
    exact (Hmax (f m') (in_map f _ _ Hin)).
Qed.



(** [List.filter] keeps a strongly sorted list sorted. *)
Lemma strongly_sorted_filter {A} (R : A -> A -> Prop) (p : A -> bool) l :
  StronglySorted R l -> StronglySorted R (List.filter p l).
Proof.
  induction 1 as [|a l Hs IH Hall]; simpl; [constructor |].
  destruct (p a); [| exact IH]. constructor; [exact IH |].
  rewrite List.Forall_forall in *. intros x Hx. apply filter_In in Hx as [Hx _].
  exact (Hall x Hx).
Qed.

(** X27. When the ids increase along the table, as rowids of an [INTEGER
    PRIMARY KEY] table do, [get_available_masters] lists the candidates in
    strictly ascending id order. *)
Lemma get_available_masters_ascending db spec c d t :
  StronglySorted Z.lt (map id db) ->
  StronglySorted Z.lt (get_available_masters db spec c d t).
Proof.
  intros Hs. unfold get_available_masters. apply strongly_sorted_filter.
  induction db as [|r db IH]; simpl in *; [constructor |].
  apply StronglySorted_inv in Hs as [Hs Hall].
  destruct (matches_query spec c r); simpl; [| exact (IH Hs)].
  constructor; [exact (IH Hs) |].
  rewrite List.Forall_forall in *. intros x Hx. apply in_map_iff in Hx as [r' [<- Hr']].
  apply filter_In in Hr' as [Hr' _]. apply Hall, in_map, Hr'.
Qed.

(** ** C1: the schedule-aware selection *)

(** Two candidates of the same city and specialization, both available on
    day 100 with no booked jobs; master 1 has the stored rating [0.0],
    master 2 the rating [4.0]. *)
Definition free_day : Schedule := {[100 := mkDaySchedule 100 true (Some (mkTimeSlot 0 10)) []]}.

Definition db_zero_rating : Db :=
  [row_of 1 (Some 0%Q) 1 (Some free_day); row_of 2 (Some 4%Q) 1 (Some free_day)].

(** C1 (code bug). With ratings [0.0] and [4.0] and no workload, the scores
    [rating * 10 - workload] are 0 and 40, yet [find_best_available_master]
    returns master 1: [rating or 5.0] turns the stored [0.0] into [5.0],
    giving master 1 the score 50. *)
Theorem find_best_available_master_zero_rating :
  get_available_masters db_zero_rating "electrical" "Moscow" 100 None = [1; 2]
  /\ map (fun r => rating r) db_zero_rating = [Some 0%Q; Some 4%Q]
  /\ get_master_workload db_zero_rating 1 100 = 0
  /\ get_master_workload db_zero_rating 2 100 = 0
  /\ master_score db_zero_rating 1 100 == 50
  /\ find_best_available_master db_zero_rating "electrical" "Moscow" 100 None = Some 1.
Proof. repeat split; reflexivity. Qed.

(** ** C8: the intake-time selection *)

(** An active master in Moscow whose specializations contain
    ["electrical"], whose terminal is not activated (the default of
    [terminal_active] at registration). *)
Definition db_no_terminal : Db := [row_of 7 (Some 5%Q) 0 None].

(** C8 (counterexample). The only active master of the city with the
    specialization is not returned: the query also requires
    [terminal_active = 1]. *)
Lemma find_available_master_needs_terminal :
  is_active (row_of 7 (Some 5%Q) 0 None) = 1
  /\ city (row_of 7 (Some 5%Q) 0 None) = "Moscow"%string
  /\ sql_like (specializations (row_of 7 (Some 5%Q) 0 None)) (contains_pattern "electrical") = true
  /\ find_available_master db_no_terminal "electrical" "Moscow" = None.
Proof. repeat split; reflexivity. Qed.

(** C8 (amended). [find_available_master] reads neither schedules nor
    workload: it returns [None] exactly when no row is active, has an
    activated terminal, lies in the city and has specializations [LIKE
    '%category%']; otherwise it returns the id of such a row whose rating
    is the highest among them (NULL below every number). *)
Theorem find_available_master_spec (db : Db) (category c : string) :
  (find_available_master db category c = None <->
     forall r, In r db -> intake_query category c r = false)
  /\ (forall m, find_available_master db category c = Some m ->
        exists r, In r db /\ id r = m /\ intake_query category c r = true
          /\ forall r', In r' db -> intake_query category c r' = true -> rating_le r' r = true).
Proof.
  unfold find_available_master. split.
  - destruct (sort_desc rating_le (List.filter (intake_query category c) db)) as [|r rest] eqn:Hs.
    + apply sort_desc_nil in Hs. split; [| done]. intros _ r Hr.
      destruct (intake_query category c r) eqn:Hq; [| done].
      assert (In r (List.filter (intake_query category c) db)) as Hin by (apply filter_In; done).
      rewrite Hs in Hin. destruct Hin.
    + split; [discriminate |]. intros Hnone.
      destruct (sort_desc_head rating_le rating_le_total rating_le_trans _ _ _ Hs)
        as [pre [post [Hl _]]].
      assert (In r (List.filter (intake_query category c) db)) as Hin
        by (rewrite Hl; apply in_or_app; right; left; done).
      apply filter_In in Hin as [Hin Hq]. rewrite (Hnone r Hin) in Hq. discriminate.
  - intros m. destruct (sort_desc rating_le (List.filter (intake_query category c) db))
      as [|r rest] eqn:Hs; [discriminate |].
    intros H. injection H as <-.
    destruct (sort_desc_head rating_le rating_le_total rating_le_trans _ _ _ Hs)
      as [pre [post [Hl [_ Hmax]]]].
    assert (In r (List.filter (intake_query category c) db)) as Hin
      by (rewrite Hl; apply in_or_app; right; left; done).
    apply filter_In in Hin as [Hin Hq].
    exists r. split; [exact Hin |]. split; [done |]. split; [exact Hq |].
    intros r' Hr' Hq'. apply Hmax, filter_In. done.
Qed.

Lemma find_available_master_spec_witness :
  exists r, In r db_sample /\ id r = 1 /\ intake_query "electrical" "Moscow" r = true
    /\ forall r', In r' db_sample -> intake_query "electrical" "Moscow" r' = true ->
         rating_le r' r = true.
Proof.
  apply (proj2 (find_available_master_spec db_sample "electrical" "Moscow") 1).
  reflexivity.
Defined.

(** * Further operations and properties *)

(** [UPDATE masters SET last_schedule_confirmation = ? WHERE id = ?]. *)
Definition set_last_confirmation (now : Z) (r : MasterRow) : MasterRow :=
  {| id := id r; specializations := specializations r; city := city r;
     rating := rating r; is_active := is_active r;
     terminal_active := terminal_active r; schedule_json := schedule_json r;
     last_schedule_confirmation := Some now |}.

(** [confirm_daily_schedule] at the instant [now]; it always returns
    [True]. *)
Definition confirm_daily_schedule (db : Db) (master_id : Z) (now : Z) : Db * bool :=
  (map (fun r => if id r =? master_id then set_last_confirmation now r else r) db, true).

Lemma row_by_id_none db m : has_row db m = false -> row_by_id db m = None.
Proof.
  unfold has_row, row_by_id. induction db as [|r db IH]; simpl; [done |].
  destruct (id r =? m); [discriminate | exact IH].
Qed.

Lemma row_by_id_some db m : has_row db m = true -> exists r, row_by_id db m = Some r /\ id r = m.
Proof.
  unfold has_row, row_by_id. induction db as [|r db IH]; simpl; [discriminate |].
  destruct (id r =? m) eqn:E; [| exact IH].
  intros _. exists r. split; [done | by apply Z.eqb_eq].
Qed.

Lemma row_by_id_update (f : MasterRow -> MasterRow) db m :
  (forall r, id (f r) = id r) ->
  row_by_id (map (fun r => if id r =? m then f r else r) db) m = option_map f (row_by_id db m).
Proof.
  intros Hid. unfold row_by_id. induction db as [|r db IH]; simpl; [done |].
  destruct (id r =? m) eqn:E; simpl.
  - rewrite Hid, E. done.
  - rewrite E. exact IH.
Qed.

(** X1. After [confirm_daily_schedule] at [t] for an existing master, a
    confirmation is needed at [now] exactly when more than 12 hours have
    passed since [t]; for a missing master the table is unchanged and a
    confirmation is always needed. *)
Theorem confirm_then_needs_confirmation (db : Db) (m t now : Z) :
  (has_row db m = true ->
     needs_schedule_confirmation (fst (confirm_daily_schedule db m t)) m now
     = (now - t >? twelve_hours))
  /\ (has_row db m = false ->
     fst (confirm_daily_schedule db m t) = db
     /\ needs_schedule_confirmation (fst (confirm_daily_schedule db m t)) m now = true).
Proof.
  split.
  - intros Hrow. unfold needs_schedule_confirmation, confirm_daily_schedule. simpl.
    rewrite row_by_id_update by done.
    destruct (row_by_id_some db m Hrow) as [r [-> _]]. done.
  - intros Hrow. unfold confirm_daily_schedule, has_row in *. simpl.
    assert (map (fun r => if id r =? m then set_last_confirmation t r else r) db = db) as Hdb.
    { induction db as [|r db IH]; simpl in *; [done |].
      destruct (id r =? m); [discriminate | rewrite (IH Hrow); done]. }
    rewrite Hdb. split; [done |].
    unfold needs_schedule_confirmation. rewrite row_by_id_none; done.
Qed.

Lemma confirm_then_needs_confirmation_witness :
  needs_schedule_confirmation (fst (confirm_daily_schedule db_sample 1 0)) 1 twelve_hours
  = (twelve_hours - 0 >? twelve_hours).
Proof. apply (proj1 (confirm_then_needs_confirmation db_sample 1 0 twelve_hours)). reflexivity. Defined.


(** X3. [find_best_available_master] returns [None] exactly when no master
    is available, and otherwise one of the available masters. *)
Theorem find_best_available_master_result (db : Db) (spec c : string) (d : Z) (t : option Z) :
  (find_best_available_master db spec c d t = None <-> get_available_masters db spec c d t = [])
  /\ (forall m, find_best_available_master db spec c d t = Some m ->
        In m (get_available_masters db spec c d t)).
Proof.
  split.
  - unfold find_best_available_master.
    destruct (get_available_masters db spec c d t) as [|m0 rest] eqn:Hc; [done |].
    split; [| discriminate].
    destruct (sort_desc score_le (map (fun m => (m, master_score db m d)) (m0 :: rest)))
      as [|[m1 q] r] eqn:Hs; [| discriminate].
    apply sort_desc_nil in Hs. discriminate.
  - intros m Hm. destruct (find_best_available_master_max _ _ _ _ _ _ Hm)
      as [pre [post [-> _]]].
    apply in_or_app. right. left. done.
Qed.

Lemma find_best_available_master_result_witness :
  In 1 (get_available_masters db_zero_rating "electrical" "Moscow" 100 None).
Proof.
  apply (proj2 (find_best_available_master_result db_zero_rating "electrical" "Moscow" 100 None)).
  reflexivity.
Defined.


Lemma get_available_masters_ascending_witness :
  StronglySorted Z.lt (get_available_masters db_zero_rating "electrical" "Moscow" 100 None).
Proof.
  apply get_available_masters_ascending.
  repeat constructor; simpl; lia.
Defined.

(** ** Composition of the schedule operations *)

Lemma set_master_schedule_no_row db m s :
  has_row db m = false -> set_master_schedule db m s = db.
Proof.
  unfold has_row, set_master_schedule. induction db as [|r db IH]; simpl; [done |].
  destruct (id r =? m); [discriminate |]. intros H. rewrite (IH H). done.
Qed.

Lemma set_master_schedule_twice db m s s' :
  set_master_schedule (set_master_schedule db m s) m s' = set_master_schedule db m s'.
Proof.
  unfold set_master_schedule. induction db as [|r db IH]; simpl; [done |].
  rewrite IH. destruct (id r =? m) eqn:E; simpl; [rewrite E |]; rewrite ?E; done.
Qed.

(** X4. [update_day_schedule] is idempotent: repeating a successful call
    with the same arguments gives back the same table, booked jobs
    included. *)
Theorem update_day_schedule_idempotent (db db1 : Db) (m d : Z) (avail : bool)
    (start_time end_time : option string) :
  update_day_schedule db m d avail start_time end_time = inr db1 ->
  update_day_schedule db1 m d avail start_time end_time = inr db1.
Proof.
  intros Hup. pose proof Hup as Hup'.
  apply update_day_schedule_result in Hup' as [ts [Hts Hdb1]].
  unfold update_day_schedule. rewrite Hts. f_equal.
  destruct (has_row db m) eqn:Hrow.
  - rewrite Hdb1 at 2 3. rewrite get_set_master_schedule_eq by exact Hrow.
    rewrite lookup_insert_eq. simpl. rewrite insert_insert_eq.
    rewrite Hdb1, set_master_schedule_twice. done.
  - rewrite set_master_schedule_no_row in Hdb1 by exact Hrow. subst db1.
    rewrite set_master_schedule_no_row by exact Hrow. done.
Qed.

Lemma update_day_schedule_idempotent_witness :
  update_day_schedule db_unset 1 100 false None None = inr db_unset.
Proof. apply (update_day_schedule_idempotent db_sample). reflexivity. Defined.

(** X5. A successful [update_day_schedule] changes no workload: every
    master keeps the number of booked jobs of every date. *)
Theorem update_day_schedule_keeps_workload (db db' : Db) (m d : Z) (avail : bool)
    (start_time end_time : option string) :
  update_day_schedule db m d avail start_time end_time = inr db' ->
  forall m' k, get_master_workload db' m' k = get_master_workload db m' k.
Proof.
  intros Hup m' k. apply update_day_schedule_result in Hup as [ts [_ ->]].
  unfold get_master_workload.
  destruct (Z.eq_dec m' m) as [-> | Hne].
  - destruct (has_row db m) eqn:Hrow.
    + rewrite get_set_master_schedule_eq by exact Hrow.
      destruct (Z.eq_dec k d) as [-> | Hk].
      * rewrite lookup_insert_eq. simpl.
        destruct (get_master_schedule db m !! d); done.
      * rewrite lookup_insert_ne by congruence. done.
    + rewrite set_master_schedule_no_row by exact Hrow. done.
  - rewrite get_set_master_schedule_ne by exact Hne. done.
Qed.

Lemma update_day_schedule_keeps_workload_witness :
  get_master_workload db_unset 1 100 = get_master_workload db_sample 1 100.
Proof.
  apply (update_day_schedule_keeps_workload db_sample db_unset 1 100 false None None).
  reflexivity.
Defined.

(** X6. Booking never changes availability: after [book_master_for_job]
    every master answers [is_master_available] as before, for every date
    and time. *)
Theorem book_keeps_availability (db : Db) (m job_id d : Z) :
  forall m' k t,
    is_master_available (book_master_for_job db m job_id d) m' k t
    = is_master_available db m' k t.
Proof.
  intros m' k t. unfold book_master_for_job.
  destruct (get_master_schedule db m !! d) as [ds|] eqn:Hl; [| done].
  pose proof (has_row_of_lookup _ _ _ _ Hl) as Hrow.
  unfold is_master_available.
  destruct (Z.eq_dec m' m) as [-> | Hne].
  - rewrite get_set_master_schedule_eq by exact Hrow.
    destruct (Z.eq_dec k d) as [-> | Hk].
    + rewrite lookup_insert_eq, Hl. destruct t; done.
    + rewrite lookup_insert_ne by congruence. done.
  - rewrite get_set_master_schedule_ne by exact Hne. done.
Qed.

(** X7. Every operation on one master's schedule leaves the schedules of
    all other masters as they were. *)
Theorem schedule_ops_frame (db : Db) (m m' : Z) :
  m' <> m ->
  (forall d avail st et db', update_day_schedule db m d avail st et = inr db' ->
     get_master_schedule db' m' = get_master_schedule db m')
  /\ (forall today ds de wd db', create_weekly_schedule db m today ds de wd = inr db' ->
     get_master_schedule db' m' = get_master_schedule db m')
  /\ (forall job_id d,
     get_master_schedule (book_master_for_job db m job_id d) m' = get_master_schedule db m').
Proof.
  intros Hne. split; [| split].
  - intros d avail st et db' Hup. apply update_day_schedule_result in Hup as [ts [_ ->]].
    apply get_set_master_schedule_ne, Hne.
  - intros today ds de wd db'. unfold create_weekly_schedule.
    destruct (weekly_entries _ _ _ _ _ _) as [err|s]; [discriminate |].
    intros H. injection H as <-. apply get_set_master_schedule_ne, Hne.
  - intros job_id d. unfold book_master_for_job.
    destruct (get_master_schedule db m !! d); [| done].
    apply get_set_master_schedule_ne, Hne.
Qed.

Lemma schedule_ops_frame_witness :
  get_master_schedule (book_master_for_job db_sample 1 8 100) 2 = get_master_schedule db_sample 2.
Proof. apply (proj2 (proj2 (schedule_ops_frame db_sample 1 2 ltac:(discriminate)))). Defined.

Lemma weekly_entries_no_jobs today ds de wd offsets acc res :
  map_Forall (fun _ e => booked_jobs e = []) acc ->
  weekly_entries today ds de wd offsets acc = inr res ->
  map_Forall (fun _ e => booked_jobs e = []) res.
Proof.
  revert acc. induction offsets as [|i rest IH]; intros acc Hacc; simpl.
  - intros H. injection H as <-. exact Hacc.
  - destruct (existsb (Z.eqb (weekday (today + i))) wd).
    + destruct (parse_time ds), (parse_time de); try discriminate.
      apply IH. apply map_Forall_insert_2; done.
    + apply IH. apply map_Forall_insert_2; done.
Qed.

(** X8. Right after a successful [create_weekly_schedule] the master's
    workload is 0 on every date: earlier bookings are gone. *)
Theorem create_weekly_schedule_clears_workload (db db' : Db) (m today : Z)
    (ds de : string) (wd : option (list Z)) :
  create_weekly_schedule db m today ds de wd = inr db' ->
  forall k, get_master_workload db' m k = 0.
Proof.
  unfold create_weekly_schedule.
  destruct (weekly_entries _ _ _ _ _ _) as [err|s] eqn:Hw; [discriminate |].
  intros H k. injection H as <-. unfold get_master_workload.
  destruct (has_row db m) eqn:Hrow.
  - rewrite get_set_master_schedule_eq by exact Hrow.
    destruct (s !! k) as [e|] eqn:Hk; [| done].
    pose proof (weekly_entries_no_jobs _ _ _ _ _ _ _ (map_Forall_empty _) Hw) as Hall.
    rewrite (map_Forall_lookup_1 _ _ _ _ Hall Hk). done.
  - rewrite set_master_schedule_no_row by exact Hrow.
    unfold get_master_schedule. rewrite row_by_id_none by exact Hrow.
    rewrite lookup_empty. done.
Qed.

Lemma create_weekly_schedule_clears_workload_witness :
  get_master_workload
    (match create_weekly_schedule db_sample 1 monday_2024 "09:00" "18:00" None with
     | inr db' => db' | inl _ => db_sample end) 1 100 = 0.
Proof. apply (create_weekly_schedule_clears_workload db_sample _ 1 monday_2024 "09:00" "18:00" None). reflexivity. Defined.

(** ** Errors of the schedule operations *)

Lemma weekly_entries_no_working_days today ds de offsets acc :
  exists res, weekly_entries today ds de [] offsets acc = inr res
    /\ forall k, res !! k =
         if existsb (fun i => today + i =? k) offsets
         then Some (mkDaySchedule k false None []) else acc !! k.
Proof.
  revert acc. induction offsets as [|i rest IH]; intros acc; simpl.
  - eexists. split; [reflexivity | done].
  - destruct (IH (<[today + i := mkDaySchedule (today + i) false None []]> acc))
      as [res [Hres Hk]].
    exists res. split; [exact Hres |].
    intros k. rewrite Hk. destruct (Z.eqb_spec (today + i) k) as [<- | Hne]; simpl.
    + destruct (existsb _ rest); [done |]. by rewrite lookup_insert_eq.
    + destruct (existsb _ rest); [done |]. by rewrite lookup_insert_ne.
Qed.

(** X9. With an empty list of working days, [create_weekly_schedule]
    parses no time string, so it succeeds whatever the strings are, and
    writes the 7 days from today as unavailable days without a slot. *)
Theorem create_weekly_schedule_no_working_days (db : Db) (m today : Z) (ds de : string) :
  exists db', create_weekly_schedule db m today ds de (Some []) = inr db'
    /\ (has_row db m = true ->
        forall k, get_master_schedule db' m !! k =
          if (today <=? k) && (k <? today + 7)
          then Some (mkDaySchedule k false None []) else None).
Proof.
  unfold create_weekly_schedule. simpl resolve_working_days.
  destruct (weekly_entries_no_working_days today ds de week_offsets ∅) as [res [Hres Hk]].
  rewrite Hres. eexists. split; [reflexivity |].
  intros Hrow k. rewrite get_set_master_schedule_eq by exact Hrow.
  rewrite Hk, existsb_week_offsets, lookup_empty. done.
Qed.







(** ** Serialization of a [TimeSlot] *)

(** The last [n] decimal digits of [v], zero-padded. *)
Fixpoint pad_digits (n : nat) (v : Z) : string :=
  match n with
  | O => EmptyString
  | S k => (pad_digits k (v / 10)
            ++ String (ascii_of_nat (48 + Z.to_nat (v mod 10))) EmptyString)%string
  end.

(** [time.isoformat()] of a time of day in microseconds: ["HH:MM:SS"],
    followed by [".ffffff"] when the microsecond is not 0. *)
Definition time_isoformat (t : Z) : string :=
  let h := t / 3600000000 in
  let mi := (t / 60000000) mod 60 in
  let s := (t / 1000000) mod 60 in
  let us := t mod 1000000 in
  let frac := if us =? 0 then EmptyString else String "." (pad_digits 6 us) in
  (pad_digits 2 h ++ ":" ++ pad_digits 2 mi ++ ":" ++ pad_digits 2 s ++ frac)%string.

(** [TimeSlot.to_dict]: the pair of the ["start"] and ["end"] fields. *)
Definition slot_to_dict (ts : TimeSlot) : string * string :=
  (time_isoformat (start ts), time_isoformat (end_ ts)).

(** [TimeSlot.from_dict]. *)
Definition slot_from_dict (data : string * string) : Result TimeSlot :=
  match parse_time (fst data) with
  | inl err => inl err
  | inr s =>
      match parse_time (snd data) with
      | inl err => inl err
      | inr e => inr (mkTimeSlot s e)
      end
  end.

Example time_isoformat_sample : time_isoformat (570 * 60 * 1000000 + 5) = "09:30:00.000005"%string.
Proof. reflexivity. Qed.

Lemma digit_of_ascii k :
  0 <= k < 10 -> digit (ascii_of_nat (48 + Z.to_nat k)) = Some k.
Proof.
  intros Hk. unfold digit.
  rewrite nat_ascii_embedding by lia.
  replace ((48 <=? 48 + Z.to_nat k)%nat && (48 + Z.to_nat k <=? 57)%nat) with true.
  - f_equal. lia.
  - symmetry. apply andb_true_iff. split; apply Nat.leb_le; lia.
Qed.

Lemma two_digits_pad n bound :
  0 <= n < bound -> bound <= 100 ->
  two_digits (ascii_of_nat (48 + Z.to_nat ((n / 10) mod 10)))
             (ascii_of_nat (48 + Z.to_nat (n mod 10))) bound = Some n.
Proof.
  intros Hn Hb. unfold two_digits.
  pose proof (Z.mod_pos_bound n 10 ltac:(lia)).
  assert (0 <= n / 10 < 10) as Hq.
  { split; [apply Z.div_pos; lia | apply Z.div_lt_upper_bound; lia]. }
  rewrite (Z.mod_small (n / 10) 10) by lia.
  rewrite !digit_of_ascii by lia.
  pose proof (Z.div_mod n 10 ltac:(lia)).
  replace (10 * (n / 10) + n mod 10) with n by lia.
  replace (n <? bound) with true by (symmetry; apply Z.ltb_lt; lia). done.
Qed.

Definition dig (k : Z) : ascii := ascii_of_nat (48 + Z.to_nat k).

Lemma pad2_app v rest :
  (pad_digits 2 v ++ rest)%string = String (dig ((v / 10) mod 10)) (String (dig (v mod 10)) rest).
Proof. reflexivity. Qed.

Lemma time_fromisoformat_hms a b c d e f :
  time_fromisoformat (String a (String b (String ":" (String c (String d
    (String ":" (String e (String f EmptyString)))))))) =
  match two_digits a b 24, two_digits c d 60, two_digits e f 60 with
  | Some h, Some m, Some sec => Some (((h * 60 + m) * 60 + sec) * 1000000)
  | _, _, _ => None
  end.
Proof. reflexivity. Qed.

Lemma time_iso_roundtrip t :
  0 <= t < 86400 * 1000000 -> t mod 1000000 = 0 ->
  time_fromisoformat (time_isoformat t) = Some t.
Proof.
  intros Ht Hus. unfold time_isoformat. rewrite Hus. cbv zeta. rewrite Z.eqb_refl.
  rewrite !pad2_app.
  repeat change (String ":" EmptyString ++ ?y)%string with (String ":" y).
  rewrite time_fromisoformat_hms.
  unfold dig.
  assert (Hu := Z.div_mod t 1000000 ltac:(lia)). rewrite Hus in Hu.
  set (u := t / 1000000) in *.
  assert (0 <= u < 86400) as Hub.
  { split; [apply Z.div_pos; lia | apply Z.div_lt_upper_bound; lia]. }
  replace (t / 3600000000) with (u / 60 / 60)
    by (unfold u; rewrite !Z.div_div by lia; reflexivity).
  replace (t / 60000000) with (u / 60)
    by (unfold u; rewrite Z.div_div by lia; reflexivity).
  assert (0 <= u / 60 / 60 < 24) as Hh.
  { split; [apply Z.div_pos; [apply Z.div_pos |]; lia |].
    rewrite Z.div_div by lia. apply Z.div_lt_upper_bound; lia. }
  pose proof (Z.mod_pos_bound (u / 60) 60 ltac:(lia)).
  pose proof (Z.mod_pos_bound u 60 ltac:(lia)).
  rewrite (two_digits_pad (u / 60 / 60) 24) by lia.
  rewrite (two_digits_pad ((u / 60) mod 60) 60) by lia.
  rewrite (two_digits_pad (u mod 60) 60) by lia.
  f_equal.
  pose proof (Z.div_mod u 60 ltac:(lia)).
  pose proof (Z.div_mod (u / 60) 60 ltac:(lia)).
  lia.
Qed.

(** X12. [TimeSlot.to_dict] followed by [TimeSlot.from_dict] gives back
    the slot for every slot whose times lie within the day and have no
    fractional seconds (the times [create_weekly_schedule] and
    [update_day_schedule] build from ["HH:MM"] strings). *)
Theorem slot_dict_roundtrip (ts : TimeSlot) :
  0 <= start ts < 86400 * 1000000 -> start ts mod 1000000 = 0 ->
  0 <= end_ ts < 86400 * 1000000 -> end_ ts mod 1000000 = 0 ->
  slot_from_dict (slot_to_dict ts) = inr ts.
Proof.
  intros Hs Hsu He Heu. unfold slot_from_dict, slot_to_dict, parse_time. cbn [fst snd].
  rewrite !time_iso_roundtrip by assumption. destruct ts. done.
Qed.

Lemma slot_dict_roundtrip_witness :
  slot_from_dict (slot_to_dict (mkTimeSlot (540 * 60 * 1000000) (1080 * 60 * 1000000)))
  = inr (mkTimeSlot (540 * 60 * 1000000) (1080 * 60 * 1000000)).
Proof. apply slot_dict_roundtrip; cbn [start end_]; [lia | reflexivity | lia | reflexivity]. Defined.

(** ** Endpoints of [src/main.py] *)

(** [HTTPException(status_code=...)]; a request body that fails the
    pydantic validation is answered by FastAPI with status 422 before the
    handler runs. *)
Inductive HttpError := HTTPException (status_code : Z).

Abbreviation Http A := (sum HttpError A).

(** [UPDATE masters SET terminal_active = ? WHERE id = ?]. *)
Definition set_terminal_active (v : Z) (r : MasterRow) : MasterRow :=
  {| id := id r; specializations := specializations r; city := city r;
     rating := rating r; is_active := is_active r;
     terminal_active := v; schedule_json := schedule_json r;
     last_schedule_confirmation := last_schedule_confirmation r |}.

Definition update_masters_terminal (db : Db) (master_id v : Z) : Db :=
  map (fun r => if id r =? master_id then set_terminal_active v r else r) db.

(** [activate_terminal]: [cursor.rowcount == 0] exactly when no row has
    the id; the handler then raises 404 without committing. *)
Definition activate_terminal (db : Db) (master_id : Z) : Http Db :=
  if has_row db master_id then inr (update_masters_terminal db master_id 1)
  else inl (HTTPException 404).

(** [update_terminal_status]: [terminal_active] is the truthiness of
    [data.get('terminal_active', False)]; the handler neither checks
    [rowcount] nor raises. *)
Definition update_terminal_status (db : Db) (master_id : Z) (terminal_active : bool) : Db :=
  update_masters_terminal db master_id (if terminal_active then 1 else 0).



(** ** The [jobs] table

    The columns read or written by the modelled endpoints, in rowid order
    (the [id] column is [INTEGER PRIMARY KEY AUTOINCREMENT]).  The
    timestamp [created_at] ([CURRENT_TIMESTAMP], a text
    ["YYYY-MM-DD HH:MM:SS"] that compares chronologically) is a number of
    seconds. *)
Record JobRow := mkJobRow {
  job_id : Z;
  client_name : string;
  client_phone : string;
  job_category : string;
  problem_description : string;
  address : string;
  estimated_price : Q;
  job_status : string;
  job_master_id : option Z;
  created_at : Z
}.

Abbreviation Jobs := (list JobRow).

(** [master_id = ?]: a NULL column is never equal. *)
Definition master_is (m : Z) (o : option Z) : bool :=
  match o with Some x => x =? m | None => false end.

Definition with_status (s : string) (j : JobRow) : JobRow :=
  {| job_id := job_id j; client_name := client_name j; client_phone := client_phone j;
     job_category := job_category j; problem_description := problem_description j;
     address := address j; estimated_price := estimated_price j;
     job_status := s; job_master_id := job_master_id j; created_at := created_at j |}.

Definition with_master_status (m : option Z) (s : string) (j : JobRow) : JobRow :=
  {| job_id := job_id j; client_name := client_name j; client_phone := client_phone j;
     job_category := job_category j; problem_description := problem_description j;
     address := address j; estimated_price := estimated_price j;
     job_status := s; job_master_id := m; created_at := created_at j |}.

(** [assign_job_to_master]: [UPDATE jobs SET master_id = ?, status =
    'accepted' WHERE id = ? AND status = 'pending'], 400 when no row
    matched.  [master_id] is [data.get('master_id')], an integer or
    missing ([None], stored as NULL). *)
Definition pending_job (job : Z) (j : JobRow) : bool :=
  (job_id j =? job) && String.eqb (job_status j) "pending".

Definition assign_job_to_master (jobs : Jobs) (job : Z) (master_id : option Z) : Http Jobs :=
  if existsb (pending_job job) jobs then
    inr (map (fun j => if pending_job job j then with_master_status master_id "accepted" j else j) jobs)
  else inl (HTTPException 400).

Definition job_statuses : list string :=
  ["pending"; "accepted"; "in_progress"; "completed"; "cancelled"]%string.

Definition valid_status (s : string) : bool := existsb (String.eqb s) job_statuses.

(** [update_job_status] of the admin route [PATCH /api/v1/jobs/{job_id}/status]:
    [new_status = data.get('status')] must be one of [job_statuses]
    ([None] is not); the UPDATE is not checked for a matching row. *)
Definition update_job_status (jobs : Jobs) (job : Z) (new_status : option string) : Http Jobs :=
  match new_status with
  | Some s =>
      if valid_status s then
        inr (map (fun j => if job_id j =? job then with_status s j else j) jobs)
      else inl (HTTPException 400)
  | None => inl (HTTPException 400)
  end.

(** The terminal route [PATCH /api/v1/terminal/jobs/{master_id}/status/{job_id}],
    also named [update_job_status] in the source: [JobStatusUpdate]
    accepts exactly the five statuses (the pattern is anchored), then
    [UPDATE jobs SET status = ? WHERE id = ? AND master_id = ?], 404 when
    no row matched. *)
Definition master_job (master_id job : Z) (j : JobRow) : bool :=
  (job_id j =? job) && master_is master_id (job_master_id j).

Definition terminal_update_job_status (jobs : Jobs) (master_id job : Z) (status : string)
    : Http Jobs :=
  if valid_status status then
    if existsb (master_job master_id job) jobs then
      inr (map (fun j => if master_job master_id job j then with_status status j else j) jobs)
    else inl (HTTPException 404)
  else inl (HTTPException 422).

(** [get_active_job]: [WHERE master_id = ? AND status IN ('accepted',
    'in_progress') ORDER BY created_at DESC LIMIT 1]; equal timestamps in
    rowid order. *)
Definition active_job_of (master_id : Z) (j : JobRow) : bool :=
  master_is master_id (job_master_id j)
  && (String.eqb (job_status j) "accepted" || String.eqb (job_status j) "in_progress").

Definition created_le (a b : JobRow) : bool := created_at a <=? created_at b.

Definition get_active_job (jobs : Jobs) (master_id : Z) : option JobRow :=
  match sort_desc created_le (List.filter (active_job_of master_id) jobs) with
  | j :: _ => Some j
  | [] => None
  end.

(** [cursor.lastrowid] after an INSERT into an AUTOINCREMENT table from
    which nothing is deleted: one more than the largest id so far, 1 for
    an empty table. *)
Definition next_job_id (jobs : Jobs) : Z :=
  1 + fold_right (fun j acc => Z.max (job_id j) acc) 0 jobs.

(** [if master_id]: [None] and [0] are falsy. *)
Definition py_truthy_id (o : option Z) : bool :=
  match o with Some m => negb (m =? 0) | None => false end.

Definition moscow : string := "Москва".

(** [process_client_request] for a request that passed the [ClientRequest]
    validation, at the time [now]; [estimated_price] is the value of
    [calculate_pricing] (float arithmetic, not modelled).  The Google sync
    only prints.  Returns the new table and [job_id]. *)
Definition process_client_request (db : Db) (jobs : Jobs) (name phone category description address : string)
    (estimated_price : Q) (now : Z) : Jobs * Z :=
  let master_id := find_available_master db category moscow in
  let job_id := next_job_id jobs in
  (jobs ++ [mkJobRow job_id name phone category description address estimated_price
              (if py_truthy_id master_id then "accepted" else "pending")%string
              master_id now],
   job_id).

(** ** Properties of the endpoints *)

Section SortPerm.
Context {A : Type} (le : A -> A -> bool).

Lemma insert_desc_perm x l : Permutation (insert_desc le x l) (x :: l).
Proof.
  induction l as [|y l IH]; simpl; [done |].
  destruct (le y x); [done |].
  rewrite IH. apply perm_swap.
Qed.

Lemma sort_desc_perm l : Permutation (sort_desc le l) l.
Proof.
  induction l as [|x l IH]; simpl; [done |].
  rewrite insert_desc_perm, IH. done.
Qed.

Hypothesis le_total : forall a b, le a b = false -> le b a = true.
Hypothesis le_trans : forall a b c, le a b = true -> le b c = true -> le a c = true.



End SortPerm.

Lemma in_sort_desc {A} (le : A -> A -> bool) x l : In x (sort_desc le l) <-> In x l.
Proof. split; apply Permutation_in; [| symmetry]; apply sort_desc_perm. Qed.

(** [find_available_master] returns the id of a row that passes the query. *)
Lemma find_available_master_row db category c m :
  find_available_master db category c = Some m ->
  exists r, In r db /\ id r = m /\ intake_query category c r = true.
Proof.
  unfold find_available_master.
  destruct (sort_desc rating_le (List.filter (intake_query category c) db)) as [|r rest] eqn:Hs;
    [discriminate |].
  intros H. injection H as <-.
  assert (In r (List.filter (intake_query category c) db)) as Hin.
  { apply (in_sort_desc rating_le). rewrite Hs. left. done. }
  apply filter_In in Hin as [Hin Hq]. exists r. done.
Qed.

Lemma find_available_master_some db category c r :
  In r db -> intake_query category c r = true ->
  exists m, find_available_master db category c = Some m.
Proof.
  intros Hin Hq. unfold find_available_master.
  destruct (sort_desc rating_le (List.filter (intake_query category c) db)) as [|r' rest] eqn:Hs.
  - apply sort_desc_nil in Hs.
    assert (In r (List.filter (intake_query category c) db)) as Hf by (apply filter_In; done).
    rewrite Hs in Hf. destruct Hf.
  - eexists. done.
Qed.





(** X16. After a successful [activate_terminal] of a master whose row is
    active, lies in city [c] and has specializations [LIKE '%category%'],
    [find_available_master category c] finds a master. *)
Theorem activate_terminal_enables_intake (db db' : Db) (m : Z) (category c : string) (r : MasterRow) :
  activate_terminal db m = inr db' ->
  In r db -> id r = m -> is_active r = 1 -> city r = c ->
  sql_like (specializations r) (contains_pattern category) = true ->
  exists m', find_available_master db' category c = Some m'.
Proof.
  unfold activate_terminal. destruct (has_row db m); [| discriminate].
  intros H Hin Hid Ha Hc Hl. injection H as <-.
  apply (find_available_master_some _ _ _ (set_terminal_active 1 r)).
  - unfold update_masters_terminal. apply in_map_iff. exists r.
    rewrite Hid, Z.eqb_refl. done.
  - unfold intake_query. simpl. rewrite Ha, Hc, Hl, String.eqb_refl. done.
Qed.

Lemma activate_terminal_enables_intake_witness :
  exists m', find_available_master (update_masters_terminal db_no_terminal 7 1) "electrical" "Moscow"
             = Some m'.
Proof.
  apply (activate_terminal_enables_intake db_no_terminal _ 7 _ _ (row_of 7 (Some 5%Q) 0 None));
    try reflexivity.
  left. reflexivity.
Defined.

(** X17. After [update_terminal_status] switches the terminal of master [m]
    off, [find_available_master] never returns [m]. *)
Theorem update_terminal_status_off (db : Db) (m : Z) (category c : string) :
  find_available_master (update_terminal_status db m false) category c <> Some m.
Proof.
  intros H. apply find_available_master_row in H as [r [Hin [Hid Hq]]].
  unfold update_terminal_status, update_masters_terminal in Hin.
  apply in_map_iff in Hin as [r0 [Hr0 _]].
  destruct (id r0 =? m) eqn:E.
  - subst r. unfold intake_query in Hq. simpl in Hq.
    rewrite andb_false_r, !andb_false_l in Hq. discriminate.
  - subst r. rewrite Hid, Z.eqb_refl in E. discriminate.
Qed.

Lemma next_job_id_fresh jobs j : In j jobs -> job_id j < next_job_id jobs.
Proof.
  unfold next_job_id. induction jobs as [|j' jobs IH]; simpl; [done |].
  intros [-> | Hin]; [lia |]. specialize (IH Hin). lia.
Qed.

Lemma existsb_pending_map job m jobs :
  existsb (pending_job job)
    (map (fun j => if pending_job job j then with_master_status m "accepted" j else j) jobs) = false.
Proof.
  induction jobs as [|j jobs IH]; simpl; [done |].
  destruct (pending_job job j) eqn:E; simpl; rewrite IH, ?orb_false_r.
  - unfold pending_job. simpl. rewrite andb_false_r. done.
  - exact E.
Qed.


(** X19. The job created by [process_client_request] can afterwards be
    assigned with [assign_job_to_master] exactly when the request found no
    master (or only the id 0); a job that got a master at intake answers
    400. *)
Theorem process_then_assign (db : Db) (jobs : Jobs)
    (name phone category description addr : string) (price : Q) (now : Z) (m : option Z) :
  (exists jobs', assign_job_to_master
      (fst (process_client_request db jobs name phone category description addr price now))
      (snd (process_client_request db jobs name phone category description addr price now)) m
    = inr jobs')
  <-> py_truthy_id (find_available_master db category moscow) = false.
Proof.
  unfold process_client_request, assign_job_to_master. simpl.
  assert (existsb (pending_job (next_job_id jobs)) jobs = false) as Hold.
  { apply not_true_iff_false. intros Hex. apply existsb_exists in Hex as [j [Hin Hp]].
    apply next_job_id_fresh in Hin. unfold pending_job in Hp.
    apply andb_true_iff in Hp as [Hid _]. apply Z.eqb_eq in Hid. lia. }
  rewrite existsb_app, Hold. simpl. unfold pending_job at 1. simpl. rewrite Z.eqb_refl. simpl.
  destruct (py_truthy_id (find_available_master db category moscow)); simpl.
  - split; [intros [? H]; discriminate | discriminate].
  - split; [done | intros _; eexists; done].
Qed.

Lemma assign_job_to_master_accepted (jobs jobs' : Jobs) (job : Z) (m : option Z) :
  assign_job_to_master jobs job m = inr jobs' ->
  exists j, In j jobs' /\ job_id j = job /\ job_status j = "accepted"%string /\ job_master_id j = m.
Proof.
  unfold assign_job_to_master. destruct (existsb (pending_job job) jobs) eqn:Hex; [| discriminate].
  intros H. injection H as <-.
  apply existsb_exists in Hex as [j [Hin Hp]].
  exists (with_master_status m "accepted" j). split.
  - apply in_map_iff. exists j. rewrite Hp. done.
  - unfold pending_job in Hp. apply andb_true_iff in Hp as [Hid _].
    apply Z.eqb_eq in Hid. done.
Qed.

(** X20. A successful [assign_job_to_master] leaves an accepted job with
    that id and the given master, changes no job with another id, and
    makes every later assignment of the same job fail with 400. *)
Theorem assign_job_to_master_once (jobs jobs' : Jobs) (job : Z) (m m' : option Z) :
  assign_job_to_master jobs job m = inr jobs' ->
  (exists j, In j jobs' /\ job_id j = job /\ job_status j = "accepted"%string /\ job_master_id j = m)
  /\ (forall j, In j jobs -> job_id j <> job -> In j jobs')
  /\ assign_job_to_master jobs' job m' = inl (HTTPException 400).
Proof.
  unfold assign_job_to_master at 1. destruct (existsb (pending_job job) jobs) eqn:Hex; [| discriminate].
  intros H. split; [| split].
  - apply (assign_job_to_master_accepted jobs). unfold assign_job_to_master. rewrite Hex. done.
  - injection H as <-. intros j Hin Hne. apply in_map_iff. exists j. split; [| done].
    unfold pending_job. apply Z.eqb_neq in Hne. rewrite Hne. done.
  - injection H as <-. unfold assign_job_to_master. rewrite existsb_pending_map. done.
Qed.

Definition job_sample : JobRow :=
  mkJobRow 1 "Ivan" "+79990000000" "electrical" "no light in the kitchen" "Tverskaya 1"
    1500 "pending" None 0.

Lemma assign_job_to_master_once_witness :
  (exists j, In j (map (fun j => if pending_job 1 j then with_master_status (Some 7) "accepted" j else j)
                    [job_sample])
             /\ job_id j = 1 /\ job_status j = "accepted"%string /\ job_master_id j = Some 7)
  /\ (forall j, In j [job_sample] -> job_id j <> 1 ->
        In j (map (fun j => if pending_job 1 j then with_master_status (Some 7) "accepted" j else j)
                [job_sample]))
  /\ assign_job_to_master
       (map (fun j => if pending_job 1 j then with_master_status (Some 7) "accepted" j else j)
          [job_sample]) 1 (Some 8) = inl (HTTPException 400).
Proof. apply (assign_job_to_master_once [job_sample]). reflexivity. Defined.

(** X21. The admin [update_job_status] fails, always with 400, exactly
    when the status is missing or not one of ['pending'], ['accepted'],
    ['in_progress'], ['completed'], ['cancelled']; with a valid status it
    succeeds even when no job has the id, and then changes nothing. *)
Theorem update_job_status_outcome (jobs : Jobs) (job : Z) (s : option string) :
  (forall e, update_job_status jobs job s = inl e <->
     e = HTTPException 400 /\ forall s', s = Some s' -> ~ In s' job_statuses)
  /\ (forall jobs', update_job_status jobs job s = inr jobs' ->
        (forall j, In j jobs -> job_id j <> job) -> jobs' = jobs).
Proof.
  split.
  - intros e. destruct s as [s |]; simpl.
    + unfold valid_status. destruct (existsb (String.eqb s) job_statuses) eqn:E.
      * split; [discriminate |]. intros [_ H]. exfalso. apply (H s eq_refl).
        apply existsb_exists in E as [s' [Hin Hs]]. apply String.eqb_eq in Hs. subst. done.
      * split.
        -- intros H. injection H as <-. split; [done |]. intros s' Hs Hin. injection Hs as <-.
           apply not_true_iff_false in E. apply E, existsb_exists. exists s.
           rewrite String.eqb_refl. done.
        -- intros [-> _]. done.
    + split; [intros H; injection H as <-; done | intros [-> _]; done].
  - intros jobs'. destruct s as [s |]; simpl; [| discriminate].
    destruct (valid_status s); [| discriminate].
    intros H Hnone. injection H as <-.
    induction jobs as [|j jobs IH]; simpl; [done |].
    rewrite IH by (intros j' Hin; apply Hnone; right; done).
    destruct (job_id j =? job) eqn:E; [| done].
    apply Z.eqb_eq in E. exfalso. apply (Hnone j); [left |]; done.
Qed.

(** X22. Setting an existing job back to ['pending'] with the admin
    [update_job_status] makes [assign_job_to_master] succeed for it again. *)
Theorem reset_to_pending_then_assign (jobs jobs' : Jobs) (job : Z) (m : option Z) :
  update_job_status jobs job (Some "pending"%string) = inr jobs' ->
  (exists j, In j jobs /\ job_id j = job) ->
  exists jobs'', assign_job_to_master jobs' job m = inr jobs''.
Proof.
  simpl. intros H [j [Hin Hid]]. injection H as <-.
  unfold assign_job_to_master.
  replace (existsb (pending_job job) _) with true; [eexists; done |].
  symmetry. apply existsb_exists. exists (with_status "pending" j). split.
  - apply in_map_iff. exists j. rewrite Hid, Z.eqb_refl. done.
  - unfold pending_job. simpl. rewrite Hid, Z.eqb_refl. done.
Qed.

Lemma reset_to_pending_then_assign_witness :
  exists jobs'', assign_job_to_master
    (map (fun j => if job_id j =? 1 then with_status "pending" j else j)
       [with_master_status (Some 7) "accepted" job_sample]) 1 (Some 8) = inr jobs''.
Proof.
  apply (reset_to_pending_then_assign [with_master_status (Some 7) "accepted" job_sample]).
  - reflexivity.
  - exists (with_master_status (Some 7) "accepted" job_sample). split; [left |]; reflexivity.
Defined.

(** X23. The terminal [update_job_status] of master [m] succeeds exactly
    when the status is one of the five and a job with that id is assigned
    to [m]; an invalid status answers 422, a job of another master or no
    job 404. On success no job changes master and no job of another
    master changes. *)
Theorem terminal_update_job_status_spec (jobs : Jobs) (m job : Z) (s : string) :
  ((exists jobs', terminal_update_job_status jobs m job s = inr jobs') <->
     In s job_statuses /\ exists j, In j jobs /\ job_id j = job /\ job_master_id j = Some m)
  /\ (~ In s job_statuses -> terminal_update_job_status jobs m job s = inl (HTTPException 422))
  /\ (forall jobs', terminal_update_job_status jobs m job s = inr jobs' ->
        map job_master_id jobs' = map job_master_id jobs
        /\ forall j, In j jobs -> job_master_id j <> Some m -> In j jobs').
Proof.
  assert (valid_status s = true <-> In s job_statuses) as Hv.
  { unfold valid_status. rewrite existsb_exists. split.
    - intros [s' [Hin Hs]]. apply String.eqb_eq in Hs. subst. done.
    - intros Hin. exists s. rewrite String.eqb_refl. done. }
  assert (existsb (master_job m job) jobs = true <->
          exists j, In j jobs /\ job_id j = job /\ job_master_id j = Some m) as He.
  { rewrite existsb_exists. split.
    - intros [j [Hin Hj]]. unfold master_job, master_is in Hj.
      apply andb_true_iff in Hj as [Hid Hm]. apply Z.eqb_eq in Hid.
      destruct (job_master_id j) as [x |] eqn:Ex; [| discriminate].
      apply Z.eqb_eq in Hm. subst. exists j. done.
    - intros [j [Hin [Hid Hm]]]. exists j. split; [done |].
      unfold master_job, master_is. rewrite Hid, Hm, !Z.eqb_refl. done. }
  unfold terminal_update_job_status. split; [| split].
  - destruct (valid_status s) eqn:Es; destruct (existsb (master_job m job) jobs) eqn:Ej.
    + split; [intros _; split; [apply Hv | apply He]; done | intros _; eexists; done].
    + split; [intros [? H]; discriminate |]. intros [_ H]. apply He in H. congruence.
    + split; [intros [? H]; discriminate |]. intros [H _]. apply Hv in H. congruence.
    + split; [intros [? H]; discriminate |]. intros [H _]. apply Hv in H. congruence.
  - intros Hn. destruct (valid_status s) eqn:Es; [| done]. exfalso. apply Hn, Hv. done.
  - intros jobs'. destruct (valid_status s), (existsb (master_job m job) jobs); try discriminate.
    intros H. injection H as <-. split.
    + rewrite map_map. apply map_ext. intros j. destruct (master_job m job j); done.
    + intros j Hin Hm. apply in_map_iff. exists j. split; [| done].
      unfold master_job, master_is.
      destruct (job_master_id j) as [x |]; [| rewrite andb_false_r; done].
      destruct (x =? m) eqn:E; [| rewrite andb_false_r; done].
      apply Z.eqb_eq in E. subst. done.
Qed.

Lemma active_job_of_iff m j :
  active_job_of m j = true <->
  job_master_id j = Some m
  /\ (job_status j = "accepted"%string \/ job_status j = "in_progress"%string).
Proof.
  unfold active_job_of, master_is. rewrite andb_true_iff, orb_true_iff, !String.eqb_eq.
  destruct (job_master_id j) as [x |]; [| split; [intros [H _]; discriminate | intros [H _]; discriminate]].
  rewrite Z.eqb_eq. split; [intros [-> H]; done | intros [H H']; injection H as ->; done].
Qed.

Lemma get_active_job_none (jobs : Jobs) (m : Z) :
  get_active_job jobs m = None <-> forall j, In j jobs -> active_job_of m j = false.
Proof.
  unfold get_active_job.
  destruct (sort_desc created_le (List.filter (active_job_of m) jobs)) as [|j rest] eqn:Hs.
  - apply sort_desc_nil in Hs. split; [| done]. intros _ j Hin.
    destruct (active_job_of m j) eqn:Ha; [| done].
    assert (In j (List.filter (active_job_of m) jobs)) as Hf by (apply filter_In; done).
    rewrite Hs in Hf. destruct Hf.
  - split; [discriminate |]. intros Hnone.
    assert (In j (List.filter (active_job_of m) jobs)) as Hf.
    { apply (in_sort_desc created_le). rewrite Hs. left. done. }
    apply filter_In in Hf as [Hin Ha]. rewrite (Hnone j Hin) in Ha. discriminate.
Qed.

(** X24. [get_active_job] of master [m] returns [None] exactly when no job
    of [m] is ['accepted'] or ['in_progress']; otherwise it returns such a
    job with the latest [created_at]. *)
Theorem get_active_job_spec (jobs : Jobs) (m : Z) :
  (get_active_job jobs m = None <-> forall j, In j jobs -> active_job_of m j = false)
  /\ (forall j, get_active_job jobs m = Some j ->
        In j jobs /\ active_job_of m j = true
        /\ forall j', In j' jobs -> active_job_of m j' = true -> created_at j' <= created_at j).
Proof.
  assert (Htot : forall a b, created_le a b = false -> created_le b a = true).
  { unfold created_le. intros a b H. apply Z.leb_gt in H. apply Z.leb_le. lia. }
  assert (Htr : forall a b c, created_le a b = true -> created_le b c = true -> created_le a c = true).
  { unfold created_le. intros a b c H1 H2. apply Z.leb_le in H1, H2. apply Z.leb_le. lia. }
  split; [apply get_active_job_none |].
  unfold get_active_job. intros j. destruct (sort_desc created_le (List.filter (active_job_of m) jobs)) as [|j0 rest] eqn:Hs;
      [discriminate |].
    intros H. injection H as <-.
    destruct (sort_desc_head created_le Htot Htr _ _ _ Hs) as [pre [post [Hl [_ Hmax]]]].
    assert (In j0 (List.filter (active_job_of m) jobs)) as Hf
      by (rewrite Hl; apply in_or_app; right; left; done).
    apply filter_In in Hf as [Hin Ha]. split; [done |]. split; [done |].
    intros j' Hin' Ha'. specialize (Hmax j' (proj2 (filter_In _ _ _) (conj Hin' Ha'))).
    unfold created_le in Hmax. apply Z.leb_le. done.
Qed.

(** X25. After [assign_job_to_master] gives a job to master [m],
    [get_active_job] of [m] returns a job. *)
Theorem assign_then_active_job (jobs jobs' : Jobs) (job m : Z) :
  assign_job_to_master jobs job (Some m) = inr jobs' ->
  exists j, get_active_job jobs' m = Some j.
Proof.
  intros H. destruct (assign_job_to_master_accepted jobs jobs' job (Some m) H)
    as [j [Hin [_ [Hst Hm]]]].
  destruct (get_active_job jobs' m) as [j' |] eqn:Hg; [eexists; done |].
  rewrite get_active_job_none in Hg.
  specialize (Hg j Hin). apply not_true_iff_false in Hg. exfalso. apply Hg.
  apply active_job_of_iff. split; [done | left; done].
Qed.

Lemma assign_then_active_job_witness :
  exists j, get_active_job
    (map (fun j => if pending_job 1 j then with_master_status (Some 7) "accepted" j else j)
       [job_sample]) 7 = Some j.
Proof. apply (assign_then_active_job [job_sample] _ 1 7). reflexivity. Defined.
